(** * Collaborative editor backend: document sessions and version history

    A shallow embedding of the server of the collaborative editor
    (the TypeScript server, [src/unnamed/part_000]; its compiled JavaScript
    twin, [src/unnamed/part_001]; and the file storage module,
    [src/unnamed/part_002]) together with the properties of its version
    ledger, snapshot policy, access checks and socket broadcasts.

    Conventions of the embedding:
    - a JavaScript [Date] is the integer [getTime()] gives (milliseconds), in [Z];
    - [new Date()] and [uuidv4()] read an oracle carried by the world: the
      n-th call returns the n-th reading, so that two calls of one handler
      may or may not fall in the same millisecond;
    - the directory [data/documents] is a finite map from document id to
      document; [JSON.stringify] followed by [JSON.parse] and the date
      revival of [loadDocument] is the identity on this representation;
    - an object that the handlers mutate in place is passed and returned. *)

From Stdlib Require Import ZArith String List Permutation Sorted Lia.
From stdpp Require Import gmap strings list pretty.

Local Open Scope string_scope.
Local Open Scope list_scope.

(** ** Strings and arrays of strings *)

(** [String.prototype.includes]: [sub] occurs in [s] at some position. *)
Fixpoint includes (s sub : string) : bool :=
  String.prefix sub s ||
  match s with
  | EmptyString => false
  | String _ s' => includes s' sub
  end.

(** [Array.prototype.includes] on an array of strings. *)
Definition array_includes (l : list string) (x : string) : bool :=
  existsb (String.eqb x) l.

(** [Array.prototype.find]. *)
Fixpoint array_find {A} (p : A -> bool) (l : list A) : option A :=
  match l with
  | [] => None
  | x :: l' => if p x then Some x else array_find p l'
  end.

(** [Array.prototype.slice(0, n)] for an integer [n]: a negative end counts
    from the end of the array. *)
Definition slice0 {A} (n : Z) (l : list A) : list A :=
  if (n <? 0)%Z then firstn (Z.to_nat (Z.of_nat (length l) + n)) l
  else firstn (Z.to_nat n) l.

(** ** Data model ([fileStorage.d.ts]) *)

Record User := mkUser {
  u_id : string;
  u_email : string;
  u_name : string
}.

Record DocumentVersion := mkVersion {
  v_id : string;
  v_content : string;
  v_createdAt : Z;
  v_authorId : string;
  v_authorName : string;
  v_changeDescription : option string
}.

Record Document := mkDocument {
  d_id : string;
  d_title : string;
  d_content : string;
  d_ownerId : string;
  d_collaborators : list string;
  d_createdAt : Z;
  d_updatedAt : Z;
  d_versions : list DocumentVersion
}.

Definition set_content (d : Document) (c : string) : Document :=
  mkDocument (d_id d) (d_title d) c (d_ownerId d) (d_collaborators d)
             (d_createdAt d) (d_updatedAt d) (d_versions d).

Definition set_updatedAt (d : Document) (t : Z) : Document :=
  mkDocument (d_id d) (d_title d) (d_content d) (d_ownerId d) (d_collaborators d)
             (d_createdAt d) t (d_versions d).

Definition set_versions (d : Document) (vs : list DocumentVersion) : Document :=
  mkDocument (d_id d) (d_title d) (d_content d) (d_ownerId d) (d_collaborators d)
             (d_createdAt d) (d_updatedAt d) vs.

Definition set_collaborators (d : Document) (cs : list string) : Document :=
  mkDocument (d_id d) (d_title d) (d_content d) (d_ownerId d) cs
             (d_createdAt d) (d_updatedAt d) (d_versions d).

(** ** Sockets, rooms and events *)

(** A connected socket: [socket.id] and the verified principal
    [socket.data.user]. *)
Record Socket := mkSocket {
  socket_id : string;
  socket_user : User
}.

(** [interface Room]: [users] is a [Map] from socket id to user, kept in
    insertion order (the [Y.Doc] is never read and is left out). *)
Record Room := mkRoom {
  room_documentId : string;
  room_users : list (string * User)
}.

(** [Map.prototype.set] on an insertion-ordered map. *)
Fixpoint map_set {V} (k : string) (v : V) (m : list (string * V)) : list (string * V) :=
  match m with
  | [] => [(k, v)]
  | (k', v') :: m' => if String.eqb k k' then (k, v) :: m' else (k', v') :: map_set k v m'
  end.

Record VersionRef := mkVersionRef {
  ref_id : string;
  ref_createdAt : Z;
  ref_authorName : string
}.

(** Server-to-client events with their payloads. *)
Inductive Event :=
| ev_error (message : string)
| ev_user_joined (user : User) (users : list (string * User))
| ev_room_users (users : list (string * User))
| ev_document_updated (content updatedBy : string) (updatedAt : Z)
| ev_document_restored (documentId content restoredBy : string) (restoredAt : Z)
                       (fromVersion : VersionRef).

(** One [emit]: the sockets it reaches and the event. *)
Record Delivery := mkDelivery {
  recipients : gset string;
  event : Event
}.

(** ** The world the handlers run in *)

Record World := mkWorld {
  clock : nat -> Z;                       (* successive readings of the system clock *)
  ticks : nat;                            (* readings taken so far *)
  uuids : nat -> string;                  (* successive results of uuidv4() *)
  drawn : nat;                            (* uuids drawn so far *)
  toLocaleString : Z -> string;           (* Date.prototype.toLocaleString *)
  files : gmap string Document;           (* data/documents/<id>.json *)
  usersCache : list (string * User);
  documentsCache : gmap string Document;
  rooms : gmap string Room;
  adapter : gmap string (gset string);    (* socket.io rooms: name -> socket ids *)
  outbox : list Delivery;                 (* emitted events, oldest first *)
  console : list string                   (* console.log lines, oldest first *)
}.

Definition set_ticks (w : World) (n : nat) : World :=
  mkWorld (clock w) n (uuids w) (drawn w) (toLocaleString w) (files w) (usersCache w)
          (documentsCache w) (rooms w) (adapter w) (outbox w) (console w).

Definition set_drawn (w : World) (n : nat) : World :=
  mkWorld (clock w) (ticks w) (uuids w) n (toLocaleString w) (files w) (usersCache w)
          (documentsCache w) (rooms w) (adapter w) (outbox w) (console w).

Definition set_files (w : World) (f : gmap string Document) : World :=
  mkWorld (clock w) (ticks w) (uuids w) (drawn w) (toLocaleString w) f (usersCache w)
          (documentsCache w) (rooms w) (adapter w) (outbox w) (console w).

Definition set_documentsCache (w : World) (c : gmap string Document) : World :=
  mkWorld (clock w) (ticks w) (uuids w) (drawn w) (toLocaleString w) (files w) (usersCache w)
          c (rooms w) (adapter w) (outbox w) (console w).

Definition set_rooms (w : World) (r : gmap string Room) : World :=
  mkWorld (clock w) (ticks w) (uuids w) (drawn w) (toLocaleString w) (files w) (usersCache w)
          (documentsCache w) r (adapter w) (outbox w) (console w).

Definition set_adapter (w : World) (a : gmap string (gset string)) : World :=
  mkWorld (clock w) (ticks w) (uuids w) (drawn w) (toLocaleString w) (files w) (usersCache w)
          (documentsCache w) (rooms w) a (outbox w) (console w).

Definition set_outbox (w : World) (o : list Delivery) : World :=
  mkWorld (clock w) (ticks w) (uuids w) (drawn w) (toLocaleString w) (files w) (usersCache w)
          (documentsCache w) (rooms w) (adapter w) o (console w).

Definition set_console (w : World) (c : list string) : World :=
  mkWorld (clock w) (ticks w) (uuids w) (drawn w) (toLocaleString w) (files w) (usersCache w)
          (documentsCache w) (rooms w) (adapter w) (outbox w) c.

(** ** A state monad over the world *)

Definition M (A : Type) : Type := World -> A * World.

Definition ret {A} (a : A) : M A := fun w => (a, w).

Definition bind {A B} (m : M A) (k : A -> M B) : M B :=
  fun w => let (a, w') := m w in k a w'.

Notation "x <- m ;; k" := (bind m (fun x => k))
  (at level 100, m at next level, right associativity).
Notation "m ;;; k" := (bind m (fun _ => k))
  (at level 100, right associativity).

(** [new Date()], as its [getTime()]. *)
Definition newDate : M Z :=
  fun w => (clock w (ticks w), set_ticks w (S (ticks w))).

Definition uuidv4 : M string :=
  fun w => (uuids w (drawn w), set_drawn w (S (drawn w))).

Definition console_log (line : string) : M unit :=
  fun w => (tt, set_console w (console w ++ [line])).

Definition localeString (t : Z) : M string :=
  fun w => (toLocaleString w t, w).

(** *** socket.io *)

(** The sockets currently in a socket.io room. *)
Definition members (w : World) (room : string) : gset string :=
  default ∅ (adapter w !! room).

Definition emit_to (to : gset string) (e : Event) : M unit :=
  fun w => (tt, set_outbox w (outbox w ++ [mkDelivery to e])).

(** [socket.emit(e)]: to this socket only. *)
Definition socket_emit (s : Socket) (e : Event) : M unit :=
  emit_to {[ socket_id s ]} e.

(** [io.to(room).emit(e)]: to every socket in the room. *)
Definition io_to_emit (room : string) (e : Event) : M unit :=
  fun w => emit_to (members w room) e w.

(** [socket.to(room).emit(e)]: to every socket in the room but the sender. *)
Definition socket_to_emit (s : Socket) (room : string) (e : Event) : M unit :=
  fun w => emit_to (members w room ∖ {[ socket_id s ]}) e w.

(** [socket.join(room)]. *)
Definition socket_join (s : Socket) (room : string) : M unit :=
  fun w => (tt, set_adapter w (<[ room := {[ socket_id s ]} ∪ members w room ]> (adapter w))).

(** [e] reached socket [sid] in some emit of the outbox. *)
Definition delivered (o : list Delivery) (sid : string) (e : Event) : Prop :=
  exists d, In d o /\ event d = e /\ sid ∈ recipients d.

(** *** File storage ([part_002]) *)

(** [saveDocument]: writes the document with a fresh [updatedAt]. *)
Definition saveDocument (document : Document) : M unit :=
  now <- newDate ;;
  fun w => (tt, set_files w (<[ d_id document := set_updatedAt document now ]> (files w))).

(** [loadDocument]: [null] when the file does not exist. *)
Definition loadDocument (documentId : string) : M (option Document) :=
  fun w => (files w !! documentId, w).

(** ** Version history helpers *)

Definition createDocumentVersion (document : Document) (content authorId authorName : string)
    (changeDescription : option string) : M DocumentVersion :=
  id <- uuidv4 ;;
  createdAt <- newDate ;;
  ret (mkVersion id content createdAt authorId authorName changeDescription).

(** [versions.sort((a, b) => b.createdAt.getTime() - a.createdAt.getTime())]:
    [Array.prototype.sort] is stable, and a stable sort by a total preorder
    has one result, the one this insertion sort computes: decreasing
    [createdAt], entries of equal [createdAt] in their former order. *)
Fixpoint insert_version (x : DocumentVersion) (l : list DocumentVersion) : list DocumentVersion :=
  match l with
  | [] => [x]
  | y :: l' =>
      if (v_createdAt x <? v_createdAt y)%Z then y :: insert_version x l'
      else x :: y :: l'
  end.

Fixpoint sort_versions (l : list DocumentVersion) : list DocumentVersion :=
  match l with
  | [] => []
  | x :: l' => insert_version x (sort_versions l')
  end.

(** The [versions] array after the push, the sort and the cut of
    [addDocumentVersion]. *)
Definition committed (versions : list DocumentVersion) (version : DocumentVersion)
    (maxVersions : Z) : list DocumentVersion :=
  let versions := versions ++ [version] in
  let versions := sort_versions versions in
  if (Z.of_nat (length versions) >? maxVersions)%Z then slice0 maxVersions versions
  else versions.

Definition addDocumentVersion (document : Document) (version : DocumentVersion)
    (maxVersions : Z) : M Document :=
  let document := set_versions document (committed (d_versions document) version maxVersions) in
  now <- newDate ;;
  ret (set_updatedAt document now).

Definition defaultMaxVersions : Z := 50.

(** The predicate of [createAutoSnapshot]'s [find]. *)
Definition option_includes (o : option string) (sub : string) : bool :=
  match o with
  | Some s => includes s sub
  | None => false
  end.

Definition is_snapshot_of (authorId : string) (v : DocumentVersion) : bool :=
  option_includes (v_changeDescription v) "Auto-snapshot" && String.eqb (v_authorId v) authorId.

Definition cooldown : Z := 30 * 60 * 1000.

(** The value of [shouldCreateSnapshot] for the [versions] array the
    document holds and the reading [now] of the clock. *)
Definition shouldCreateSnapshot (versions : list DocumentVersion) (authorId : string) (now : Z)
    : bool :=
  let lastSnapshot := array_find (is_snapshot_of authorId) versions in
  match lastSnapshot with
  | None => true
  | Some lastSnapshot => (now - v_createdAt lastSnapshot >? cooldown)%Z
  end.

Definition createAutoSnapshot (document : Document) (authorId authorName : string) : M Document :=
  now <- newDate ;;
  if shouldCreateSnapshot (d_versions document) authorId now then
    snapshotVersion <- createDocumentVersion document (d_content document) authorId authorName
                         (Some "Auto-snapshot") ;;
    document <- addDocumentVersion document snapshotVersion defaultMaxVersions ;;
    console_log ("Auto-snapshot created for document " +:+ d_id document +:+ " by " +:+ authorName) ;;;
    ret document
  else ret document.

(** ** Access checks

    The handlers inline one test,
    [document.ownerId !== user.id && !document.collaborators?.includes(user.id)]
    (join-document, GET and PUT of a document, restore, export), and the
    owner-only test [document.ownerId !== user.id] (delete, add and remove
    collaborator). *)

Definition denied (document : Document) (userId : string) : bool :=
  negb (String.eqb (d_ownerId document) userId) &&
  negb (array_includes (d_collaborators document) userId).

Definition not_owner (document : Document) (userId : string) : bool :=
  negb (String.eqb (d_ownerId document) userId).

(** The access policy in the words of the design: the negations of the
    inlined tests. *)
Definition canRead (document : Document) (userId : string) : bool :=
  negb (denied document userId).

Definition canManageCollaborators (document : Document) (userId : string) : bool :=
  negb (not_owner document userId).

(** ** Socket handlers *)

Definition rooms_get (documentId : string) : M (option Room) :=
  fun w => (rooms w !! documentId, w).

Definition rooms_set (documentId : string) (room : Room) : M unit :=
  fun w => (tt, set_rooms w (<[ documentId := room ]> (rooms w))).

(** [socket.on('join-document', ...)]. *)
Definition join_document (socket : Socket) (documentId : string) : M unit :=
  document <- loadDocument documentId ;;
  match document with
  | None => socket_emit socket (ev_error "Document not found")
  | Some document =>
      let user := socket_user socket in
      if denied document (u_id user) then socket_emit socket (ev_error "Access denied")
      else
        socket_join socket documentId ;;;
        found <- rooms_get documentId ;;
        let room := default (mkRoom documentId []) found in
        let room := mkRoom (room_documentId room)
                           (map_set (socket_id socket) user (room_users room)) in
        rooms_set documentId room ;;;
        socket_to_emit socket documentId (ev_user_joined user (room_users room)) ;;;
        socket_emit socket (ev_room_users (room_users room)) ;;;
        console_log (u_name user +:+ " joined document: " +:+ documentId)
  end.

(** [socket.on('document-change', ...)]. The TypeScript server and its
    compiled twin differ in one line, the broadcast, which is the parameter
    [broadcast] here. *)
Definition document_change_with (broadcast : Socket -> string -> Event -> M unit)
    (socket : Socket) (documentId content : string) : M unit :=
  let user := socket_user socket in
  document <- loadDocument documentId ;;
  match document with
  | None => ret tt
  | Some document =>
      document <-
        (if negb (String.eqb content (d_content document)) then
           version <- createDocumentVersion document content (u_id user) (u_name user)
                        (Some "Manual save") ;;
           document <- addDocumentVersion document version defaultMaxVersions ;;
           createAutoSnapshot document (u_id user) (u_name user)
         else ret document) ;;
      now <- newDate ;;
      let updatedDocument := set_updatedAt (set_content document content) now in
      saveDocument updatedDocument ;;;
      updatedAt <- newDate ;;
      broadcast socket documentId (ev_document_updated content (u_name user) updatedAt) ;;;
      console_log ("Document " +:+ documentId +:+ " updated by " +:+ u_name user +:+
                   ", version created")
  end.

(** [part_000]: [io.to(documentId).emit('document-updated', ...)]. *)
Definition document_change : Socket -> string -> string -> M unit :=
  document_change_with (fun _ => io_to_emit).

(** [part_001]: [socket.to(documentId).emit('document-updated', ...)]. *)
Definition document_change_js : Socket -> string -> string -> M unit :=
  document_change_with socket_to_emit.

(** ** HTTP handlers *)

Record VersionView := mkVersionView {
  view_id : string;
  view_content : string;
  view_createdAt : Z;
  view_authorId : string;
  view_authorName : string;
  view_changeDescription : option string;
  isAutoSnapshot : option bool
}.

Inductive Body :=
| json_error (error : string)
| json_message (message : string)
| json_document (document : Document)
| json_versions (documentId : string) (versions : list VersionView)
| json_version (version : VersionView)
| json_restored (message : string) (restoredAt : Z) (fromVersion : VersionRef).

Record Response := mkResponse {
  status : nat;
  body : Body
}.

Definition cache_get (id : string) : M (option Document) :=
  fun w => (documentsCache w !! id, w).

Definition cache_set (id : string) (document : Document) : M unit :=
  fun w => (tt, set_documentsCache w (<[ id := document ]> (documentsCache w))).

(** [GET /api/documents/:id]. *)
Definition get_document (user : User) (id : string) : M Response :=
  document <- cache_get id ;;
  match document with
  | None => ret (mkResponse 404 (json_error "Document not found"))
  | Some document =>
      if denied document (u_id user) then ret (mkResponse 403 (json_error "Access denied"))
      else ret (mkResponse 200 (json_document document))
  end.

(** The object both version endpoints build for a version;
    [v.changeDescription?.includes('Auto snapshot')] is [undefined] when the
    version has no description. *)
Definition version_view (v : DocumentVersion) : VersionView :=
  mkVersionView (v_id v) (v_content v) (v_createdAt v) (v_authorId v) (v_authorName v)
    (v_changeDescription v)
    (match v_changeDescription v with
     | Some s => Some (includes s "Auto snapshot")
     | None => None
     end).

(** [GET /api/documents/:id/versions]: registered without
    [authenticateToken], so the handler has no principal. *)
Definition get_versions (id : string) : M Response :=
  document <- loadDocument id ;;
  match document with
  | None => ret (mkResponse 404 (json_error "Document not found"))
  | Some document =>
      let versions := d_versions document in
      ret (mkResponse 200 (json_versions id (map version_view versions)))
  end.

(** [GET /api/documents/:id/versions/:versionId], also without
    [authenticateToken]. *)
Definition get_version (id versionId : string) : M Response :=
  document <- loadDocument id ;;
  match document with
  | None => ret (mkResponse 404 (json_error "Document not found"))
  | Some document =>
      match array_find (fun v => String.eqb (v_id v) versionId) (d_versions document) with
      | None => ret (mkResponse 404 (json_error "Version not found"))
      | Some version => ret (mkResponse 200 (json_version (version_view version)))
      end
  end.

(** [POST /api/documents/:id/restore/:versionId]. *)
Definition restore_version (user : User) (id versionId : string) : M Response :=
  document <- loadDocument id ;;
  match document with
  | None => ret (mkResponse 404 (json_error "Document not found"))
  | Some document =>
      if denied document (u_id user) then ret (mkResponse 403 (json_error "Access denied"))
      else
        match array_find (fun v => String.eqb (v_id v) versionId) (d_versions document) with
        | None => ret (mkResponse 404 (json_error "Version not found"))
        | Some version =>
            stamp <- localeString (v_createdAt version) ;;
            currentVersion <- createDocumentVersion document (d_content document)
                                (u_id user) (u_name user)
                                (Some ("Auto-save before restoring to version from " +:+ stamp)) ;;
            document <- addDocumentVersion document currentVersion defaultMaxVersions ;;
            let document := set_content document (v_content version) in
            now <- newDate ;;
            let document := set_updatedAt document now in
            saveDocument document ;;;
            cache_set id document ;;;
            let fromVersion :=
              mkVersionRef (v_id version) (v_createdAt version) (v_authorName version) in
            restoredAt <- newDate ;;
            io_to_emit ("document:" +:+ id)
              (ev_document_restored id (v_content version) (u_name user) restoredAt fromVersion) ;;;
            restoredAt <- newDate ;;
            ret (mkResponse 200 (json_restored "Document restored successfully" restoredAt
                                   fromVersion))
        end
  end.

(** [Array.prototype.splice(index, 1)] at the index [indexOf] found: the
    first occurrence goes. *)
Fixpoint remove_first (x : string) (l : list string) : list string :=
  match l with
  | [] => []
  | y :: l' => if String.eqb y x then l' else y :: remove_first x l'
  end.

(** [POST /api/documents/:id/collaborators], as the TypeScript server
    [part_000] has it: the collaborator is looked up in [usersCache]. *)
Definition add_collaborator (user : User) (id email : string) : M Response :=
  document <- loadDocument id ;;
  match document with
  | None => ret (mkResponse 404 (json_error "Document not found"))
  | Some document =>
      if not_owner document (u_id user)
      then ret (mkResponse 403 (json_error "Only document owner can add collaborators"))
      else
        cached <- (fun w => (map snd (usersCache w), w)) ;;
        match array_find (fun u => String.eqb (u_email u) email) cached with
        | None => ret (mkResponse 404 (json_error "User not found"))
        | Some collaborator =>
            if String.eqb (u_id collaborator) (d_ownerId document)
            then ret (mkResponse 400 (json_error "Cannot add owner as collaborator"))
            else
              (if negb (array_includes (d_collaborators document) (u_id collaborator)) then
                 let document :=
                   set_collaborators document (d_collaborators document ++ [u_id collaborator]) in
                 now <- newDate ;;
                 let document := set_updatedAt document now in
                 saveDocument document ;;;
                 cache_set id document
               else ret tt) ;;;
              ret (mkResponse 200 (json_message "Collaborator added successfully"))
        end
  end.

(** The same endpoint in the compiled server [part_001]: past the owner
    test the handler reads [users], a name the file never declares; the
    read throws, and the handler's [catch] answers 500. *)
Definition add_collaborator_js (user : User) (id email : string) : M Response :=
  document <- loadDocument id ;;
  match document with
  | None => ret (mkResponse 404 (json_error "Document not found"))
  | Some document =>
      if not_owner document (u_id user)
      then ret (mkResponse 403 (json_error "Only document owner can add collaborators"))
      else ret (mkResponse 500 (json_error "Internal server error"))
  end.

(** [DELETE /api/documents/:id/collaborators/:collaboratorId]. *)
Definition remove_collaborator (user : User) (id collaboratorId : string) : M Response :=
  document <- loadDocument id ;;
  match document with
  | None => ret (mkResponse 404 (json_error "Document not found"))
  | Some document =>
      if not_owner document (u_id user)
      then ret (mkResponse 403 (json_error "Only document owner can remove collaborators"))
      else if negb (array_includes (d_collaborators document) collaboratorId)
      then ret (mkResponse 404 (json_error "Collaborator not found"))
      else
        let document :=
          set_collaborators document (remove_first collaboratorId (d_collaborators document)) in
        now <- newDate ;;
        let document := set_updatedAt document now in
        saveDocument document ;;;
        cache_set id document ;;;
        ret (mkResponse 200 (json_message "Collaborator removed successfully"))
  end.

(** ** The rest of the document endpoints *)

Definition set_title (d : Document) (t : string) : Document :=
  mkDocument (d_id d) t (d_content d) (d_ownerId d) (d_collaborators d)
             (d_createdAt d) (d_updatedAt d) (d_versions d).

(** A string field of a request body: absent, or a string. [truthy] is
    its value as a condition, [or_default] is [field || fallback]: the
    empty string counts as absent. *)
Definition truthy (field : option string) : bool :=
  match field with
  | Some s => negb (String.eqb s "")
  | None => false
  end.

Definition or_default (field : option string) (fallback : string) : string :=
  match field with
  | Some s => if String.eqb s "" then fallback else s
  | None => fallback
  end.

(** [POST /api/documents]. *)
Definition create_document (user : User) (title content : option string) : M Response :=
  id <- uuidv4 ;;
  createdAt <- newDate ;;
  updatedAt <- newDate ;;
  versionId <- uuidv4 ;;
  versionCreatedAt <- newDate ;;
  let document :=
    mkDocument id (or_default title "Untitled Document")
      (or_default content "<p>Start typing here...</p>") (u_id user) [] createdAt updatedAt
      [mkVersion versionId (or_default content "<p>Start typing here...</p>") versionCreatedAt
         (u_id user) (u_name user) (Some "Initial version")] in
  saveDocument document ;;;
  cache_set (d_id document) document ;;;
  rooms_set (d_id document) (mkRoom (d_id document) []) ;;;
  ret (mkResponse 201 (json_document document)).

(** [PUT /api/documents/:id]. *)
Definition put_document (user : User) (id : string) (title content : option string)
    : M Response :=
  document <- loadDocument id ;;
  match document with
  | None => ret (mkResponse 404 (json_error "Document not found"))
  | Some document =>
      if denied document (u_id user) then ret (mkResponse 403 (json_error "Access denied"))
      else
        document <-
          (if truthy content && negb (String.eqb (or_default content "") (d_content document))
           then
             versionId <- uuidv4 ;;
             createdAt <- newDate ;;
             ret (set_versions document
                    (d_versions document ++
                     [mkVersion versionId (or_default content "") createdAt
                        (u_id user) (u_name user) (Some "Content updated")]))
           else ret document) ;;
        let document := set_title document (or_default title (d_title document)) in
        let document := set_content document (or_default content (d_content document)) in
        now <- newDate ;;
        let document := set_updatedAt document now in
        saveDocument document ;;;
        cache_set id document ;;;
        ret (mkResponse 200 (json_document document))
  end.

(** [POST /api/documents/:id/versions]: the handler commits the version to
    the document it loaded and answers; it does not save that document. *)
Definition create_version (user : User) (id : string) (changeDescription : option string)
    : M Response :=
  document <- loadDocument id ;;
  match document with
  | None => ret (mkResponse 404 (json_error "Document not found"))
  | Some document =>
      version <- createDocumentVersion document (d_content document) (u_id user) (u_name user)
                   (Some (or_default changeDescription "Manual save")) ;;
      addDocumentVersion document version defaultMaxVersions ;;;
      ret (mkResponse 200
             (json_version
                (mkVersionView (v_id version) (v_content version) (v_createdAt version)
                   (v_authorId version) (v_authorName version) (v_changeDescription version)
                   None)))
  end.

(** [getDocumentWithCache]: the cache first, then the file, which it caches. *)
Definition getDocumentWithCache (documentId : string) : M (option Document) :=
  cached <- cache_get documentId ;;
  match cached with
  | Some document => ret (Some document)
  | None =>
      document <- loadDocument documentId ;;
      match document with
      | Some document => cache_set documentId document ;;; ret (Some document)
      | None => ret None
      end
  end.

(** [saveDocumentWithCache]. *)
Definition saveDocumentWithCache (document : Document) : M unit :=
  saveDocument document ;;;
  cache_set (d_id document) document.



(** ** Presence and disconnection *)

(** The events of the presence handlers, and one [emit] of such an event.
    These handlers return the emits they perform. [selection] is an opaque
    payload, kept as the text of its JSON. *)
Inductive Presence :=
| ev_cursor_updated (userId userName : string) (position : Z) (selection : string)
| ev_user_typing (userId userName : string) (isTyping : bool)
| ev_user_left (user : User) (users : list (string * User)).

Record Relay := mkRelay {
  relay_to : gset string;
  relay_event : Presence
}.



(** [Map.prototype.has] and [Map.prototype.delete] on an insertion-ordered
    map. *)
Definition map_has {V} (k : string) (m : list (string * V)) : bool :=
  existsb (fun kv => String.eqb (fst kv) k) m.

Definition map_delete {V} (k : string) (m : list (string * V)) : list (string * V) :=
  List.filter (fun kv => negb (String.eqb (fst kv) k)) m.

(** What socket.io has done when it fires ['disconnect']: the socket has
    left every room. *)
Definition socket_leave_all (s : Socket) : M unit :=
  fun w => (tt, set_adapter w ((fun sockets => sockets ∖ {[ socket_id s ]}) <$> adapter w)).

(** One turn of the loop of the disconnect handler, on the entry
    [(documentId, room)]: the room as the turn leaves it ([None] when the
    turn deletes it). *)
Definition room_without (s : Socket) (room : Room) : option Room :=
  if map_has (socket_id s) (room_users room) then
    let users := map_delete (socket_id s) (room_users room) in
    if (length users =? 0)%nat then None
    else Some (mkRoom (room_documentId room) users)
  else Some room.

(** [socket.on('disconnect', ...)]. Each turn of the loop over
    [rooms.entries()] reads and changes its own entry only, so the loop is
    a map over the entries; the emits are listed in the order of
    [map_to_list], where the source has the insertion order of the [Map]. *)
Definition disconnect (s : Socket) : M (list Relay) :=
  socket_leave_all s ;;;
  console_log ("User disconnected: " +:+ u_name (socket_user s)) ;;;
  fun w =>
    let listed :=
      List.filter (fun entry => map_has (socket_id s) (room_users (snd entry)))
                  (map_to_list (rooms w)) in
    (map (fun entry =>
            mkRelay (members w (fst entry) ∖ {[ socket_id s ]})
              (ev_user_left (socket_user s)
                 (map_delete (socket_id s) (room_users (snd entry)))))
         listed,
     set_rooms w (omap (room_without s) (rooms w))).

(** The room of a document lists the socket. *)
Definition in_room (w : World) (documentId : string) (socketId : string) : bool :=
  match rooms w !! documentId with
  | Some room => map_has socketId (room_users room)
  | None => false
  end.

(** ** Deleting documents, and backups *)

(** A file of [data/backups]: the document and the time of the backup
    (the field [type] is always ['auto_backup']). *)
Record Backup := mkBackup {
  backup_document : Document;
  backedUpAt : Z
}.

(** The world together with the directory [data/backups], a map from file
    name to backup. *)
Record Disk := mkDisk {
  world : World;
  backups : gmap string Backup
}.

Definition MB (A : Type) : Type := Disk -> A * Disk.

Definition retB {A} (a : A) : MB A := fun d => (a, d).

Definition bindB {A B} (m : MB A) (k : A -> MB B) : MB B :=
  fun d => let (a, d') := m d in k a d'.

Notation "x <<- m ;; k" := (bindB m (fun x => k))
  (at level 100, m at next level, right associativity).

(** A computation on the world, run on the disk. *)
Definition lift {A} (m : M A) : MB A :=
  fun d => let (a, w') := m (world d) in (a, mkDisk w' (backups d)).

Definition write_backup (name : string) (b : Backup) : MB unit :=
  fun d => (tt, mkDisk (world d) (<[ name := b ]> (backups d))).

Definition unlink_document (documentId : string) : MB unit :=
  fun d => (tt, mkDisk (set_files (world d) (delete documentId (files (world d)))) (backups d)).

Definition cache_delete (id : string) : M unit :=
  fun w => (tt, set_documentsCache w (delete id (documentsCache w))).


Section Backups.

(** [stamp t] is [new Date(t).toISOString().replace(/[:.]/g, '-')]. *)
Variable stamp : Z -> string.

Definition backup_name (documentId : string) (t : Z) : string :=
  documentId +:+ "_" +:+ stamp t +:+ ".json".

(** [createBackup] ([part_002]). *)
Definition createBackup (documentId : string) : MB unit :=
  document <<- lift (loadDocument documentId) ;;
  match document with
  | None => retB tt
  | Some document =>
      t <<- lift newDate ;;
      backedUp <<- lift newDate ;;
      write_backup (backup_name documentId t) (mkBackup document backedUp)
  end.

(** [deleteDocument] ([part_002]): backs the file up, then unlinks it. *)
Definition deleteDocument (documentId : string) : MB bool :=
  found <<- lift (loadDocument documentId) ;;
  match found with
  | Some _ =>
      _ <<- createBackup documentId ;;
      _ <<- unlink_document documentId ;;
      retB true
  | None => retB false
  end.

(** [restoreFromBackup] ([part_002]). *)
Definition restoreFromBackup (filename : string) : MB bool :=
  fun d =>
    match backups d !! filename with
    | None => (false, d)
    | Some b => (_ <<- lift (saveDocument (backup_document b)) ;; retB true) d
    end.


(** The answers of [DELETE /api/documents/:id]. *)
Inductive DeleteResponse :=
| delete_error (status : nat) (error : string)
| delete_ok (success : bool) (message : string).

(** [DELETE /api/documents/:id]. The line of [console.log] is the source's,
    byte for byte; [console.warn] writes to the error stream, which the
    world does not keep. *)
Definition delete_document (user : User) (id : string) : MB DeleteResponse :=
  document <<- lift (loadDocument id) ;;
  match document with
  | None => retB (delete_error 404 "Document not found")
  | Some document =>
      if not_owner document (u_id user)
      then retB (delete_error 403 "Access denied - only owner can delete document")
      else
        deleted <<- deleteDocument id ;;
        _ <<- lift (if deleted : bool
                    then console_log ("ðŸ—‘ï¸ Document file deleted: " +:+ id)
                    else ret tt) ;;
        _ <<- lift (cache_delete id) ;;
        retB (delete_ok true "Document deleted successfully")
  end.

(** [POST /api/storage/backup/:documentId]. *)
Definition backup_endpoint (user : User) (documentId : string) : MB Response :=
  document <<- lift (getDocumentWithCache documentId) ;;
  match document with
  | None => retB (mkResponse 404 (json_error "Document not found"))
  | Some document =>
      if denied document (u_id user) then retB (mkResponse 403 (json_error "Access denied"))
      else
        _ <<- createBackup documentId ;;
        retB (mkResponse 200 (json_message "Backup created successfully"))
  end.

End Backups.

(** ** Vocabulary of the ledger properties *)

(** [a] is at least as new as [b]. *)
Definition newer_eq (a b : DocumentVersion) : Prop := (v_createdAt b <= v_createdAt a)%Z.

(** Newest first: every entry is at least as new as all that follow it. *)
Definition newest_first (l : list DocumentVersion) : Prop := StronglySorted newer_eq l.

(** [insert_last v s]: [v] goes behind every leading entry that is at least
    as new, which is where the stable sort leaves the pushed entry. *)
Fixpoint insert_last (v : DocumentVersion) (s : list DocumentVersion) : list DocumentVersion :=
  match s with
  | [] => [v]
  | y :: s' =>
      if (v_createdAt v <=? v_createdAt y)%Z then y :: insert_last v s'
      else v :: y :: s'
  end.

Definition at_least_as_new (v x : DocumentVersion) : bool := (v_createdAt v <=? v_createdAt x)%Z.
Definition older (v x : DocumentVersion) : bool := (v_createdAt x <? v_createdAt v)%Z.

(** The number of entries of [l] at least as new as [v]. *)
Definition rank (v : DocumentVersion) (l : list DocumentVersion) : nat :=
  length (List.filter (at_least_as_new v) l).

(** A sequence of commits on one document. *)
Fixpoint commit_all (document : Document) (versions : list DocumentVersion) (maxVersions : Z)
    : M Document :=
  match versions with
  | [] => ret document
  | version :: rest =>
      document <- addDocumentVersion document version maxVersions ;;
      commit_all document rest maxVersions
  end.

(** ** Sample data for the worked examples *)

Definition alice : User := mkUser "A" "alice@example.com" "Alice".
Definition bob : User := mkUser "B" "bob@example.com" "Bob".
Definition mallory : User := mkUser "M" "mallory@example.com" "Mallory".

Definition version_at (id : string) (t : Z) (description : string) : DocumentVersion :=
  mkVersion id "<p>old</p>" t "A" "Alice" (Some description).

(** The document of the end-to-end scenario: owner Alice, collaborator Bob. *)
Definition notes : Document :=
  mkDocument "d1" "Notes" "<p>hi</p>" "A" ["B"] 0 0
    [mkVersion "v0" "<p>hi</p>" 0 "A" "Alice" (Some "Initial version")].

(** A world whose clock starts at one hour and advances one millisecond per
    reading, with [notes] on disk and both users' sockets in its room. *)
Definition world0 : World :=
  mkWorld (fun n => 3600000 + Z.of_nat n)%Z 0 (fun n => "uuid-" +:+ pretty n) 0
          (fun t => pretty t)
          {[ "d1" := notes ]} [("A", alice); ("B", bob)] ∅ ∅
          {[ "d1" := {[ "socket-A"; "socket-B" ]} ]} [] [].

(** A ledger filled to the default cap by entries of one and the same
    millisecond, and a snapshot of that millisecond. *)
Definition tied_versions : list DocumentVersion :=
  map (fun n => version_at ("v" +:+ pretty n) 5 "Manual save") (seq 0 50).

Definition tied_document : Document :=
  mkDocument "d2" "Busy" "<p>busy</p>" "A" [] 0 5 tied_versions.

Definition tied_snapshot : DocumentVersion := version_at "new" 5 "Manual save".

(** ** Vocabulary of the handler properties *)

(** The two versions [document-change] builds when it runs in world [w]:
    the one it always commits on a change of content, and the one the
    snapshot policy adds. *)
Definition manual_save (w : World) (user : User) (content : string) : DocumentVersion :=
  mkVersion (uuids w (drawn w)) content (clock w (ticks w)) (u_id user) (u_name user)
            (Some "Manual save").

Definition auto_snapshot (w : World) (user : User) (document : Document) : DocumentVersion :=
  mkVersion (uuids w (S (drawn w))) (d_content document) (clock w (3 + ticks w))
            (u_id user) (u_name user) (Some "Auto-snapshot").

(** The ledger the snapshot policy inspects: the stored one after the
    commit of the manual save. *)
Definition ledger_at_check (w : World) (user : User) (document : Document) (content : string)
    : list DocumentVersion :=
  committed (d_versions document) (manual_save w user content) defaultMaxVersions.

Definition snapshot_due (w : World) (user : User) (document : Document) (content : string)
    : bool :=
  shouldCreateSnapshot (ledger_at_check w user document content) (u_id user)
                       (clock w (2 + ticks w)).

Definition ledger_after_edit (w : World) (user : User) (document : Document) (content : string)
    : list DocumentVersion :=
  if snapshot_due w user document content
  then committed (ledger_at_check w user document content) (auto_snapshot w user document)
                 defaultMaxVersions
  else ledger_at_check w user document content.

(** The line [createAutoSnapshot] logs when, and only when, it commits a
    snapshot; the number of such lines added between two worlds. *)
Definition snapshot_line (documentId authorName : string) : string :=
  "Auto-snapshot created for document " +:+ documentId +:+ " by " +:+ authorName.

Definition snapshots_created (documentId authorName : string) (w w' : World) : nat :=
  count_occ string_dec (console w') (snapshot_line documentId authorName) -
  count_occ string_dec (console w) (snapshot_line documentId authorName).

(** The deliveries a handler added to the outbox. *)
Definition sent (w w' : World) : list Delivery := drop (length (outbox w)) (outbox w').



(** The world [document-change] has built when it reaches its broadcast,
    on a change of content: the document written back, the clock readings
    and uuids used, the snapshot line logged. *)
Definition world_at_broadcast (w : World) (user : User) (document : Document) (content : string)
    : World :=
  let due := snapshot_due w user document content in
  mkWorld (clock w) ((if due then 7 else 5) + ticks w)%nat
          (uuids w) ((if due then 2 else 1) + drawn w)%nat (toLocaleString w)
          (<[ d_id document :=
                mkDocument (d_id document) (d_title document) content (d_ownerId document)
                  (d_collaborators document) (d_createdAt document)
                  (clock w ((if due then 6 else 4) + ticks w)%nat)
                  (ledger_after_edit w user document content) ]> (files w))
          (usersCache w) (documentsCache w) (rooms w) (adapter w) (outbox w)
          (if due then console w ++ [snapshot_line (d_id document) (u_name user)]
           else console w).

(** The same when the content sent is the stored content. *)
Definition world_at_rebroadcast (w : World) (document : Document) : World :=
  mkWorld (clock w) (2 + ticks w)%nat (uuids w) (drawn w) (toLocaleString w)
          (<[ d_id document := set_updatedAt document (clock w (1 + ticks w)%nat) ]> (files w))
          (usersCache w) (documentsCache w) (rooms w) (adapter w) (outbox w) (console w).

Definition update_line (documentId userName : string) : string :=
  "Document " +:+ documentId +:+ " updated by " +:+ userName +:+ ", version created".

(** [notes] while Alice's snapshot cool-down runs: her last auto-snapshot
    is one second old. *)
Definition cooling_notes : Document :=
  set_versions notes [mkVersion "s0" "<p>h</p>" 3599000 "A" "Alice" (Some "Auto-snapshot")].

Definition world_cooling : World := set_files world0 {[ "d1" := cooling_notes ]}.

Definition socket_A : Socket := mkSocket "socket-A" alice.
Definition socket_B : Socket := mkSocket "socket-B" bob.
Definition socket_M : Socket := mkSocket "socket-M" mallory.





(** [n] edits of "d1" in a row by Alice, each with a content of its own. *)
Fixpoint edits (n : nat) (w : World) : World :=
  match n with
  | O => w
  | S n => snd (document_change socket_A "d1" ("<p>" +:+ pretty n +:+ "</p>") (edits n w))
  end.

(** [tied_document] on disk, in a world whose clock reads the millisecond
    of its entries first and advances one millisecond per reading; and the
    same with a clock that stays within that millisecond. *)
Definition world_tied : World :=
  mkWorld (fun n => 5 + Z.of_nat n)%Z 0 (uuids world0) 0 (toLocaleString world0)
          {[ "d2" := tied_document ]} (usersCache world0) ∅ ∅ ∅ [] [].

Definition world_frozen : World :=
  mkWorld (fun _ => 5%Z) 0 (uuids world0) 0 (toLocaleString world0)
          {[ "d2" := tied_document ]} (usersCache world0) ∅ ∅ ∅ [] [].

(** [notes] with a draft as its content, one version behind it. *)
Definition drafted_notes : Document := set_content notes "<p>draft</p>".

Definition world_draft : World := set_files world0 {[ "d1" := drafted_notes ]}.

(** * Properties *)

(** ** The version ledger *)


Lemma insert_version_perm x l : Permutation (insert_version x l) (x :: l).
Proof.
  induction l as [|y l IH]; simpl; [reflexivity|].
  destruct (v_createdAt x <? v_createdAt y)%Z; [|reflexivity].
  rewrite IH. apply perm_swap.
Qed.

Lemma sort_versions_perm l : Permutation (sort_versions l) l.
Proof.
  induction l as [|x l IH]; simpl; [reflexivity|].
  rewrite insert_version_perm. by constructor.
Qed.

Lemma sort_versions_length l : length (sort_versions l) = length l.
Proof. apply Permutation_length, sort_versions_perm. Qed.

Lemma insert_version_sorted x l : newest_first l -> newest_first (insert_version x l).
Proof.
  unfold newest_first. induction 1 as [|y l Hs IH Hy]; simpl.
  - repeat constructor.
  - destruct (v_createdAt x <? v_createdAt y)%Z eqn:E.
    + constructor; [exact IH|].
      apply Forall_forall. intros z Hz.
      rewrite insert_version_perm in Hz.
      apply elem_of_cons in Hz as [->|Hz]; [unfold newer_eq; lia|].
      rewrite Forall_forall in Hy. by apply Hy.
    + constructor; [by constructor|].
      constructor; [unfold newer_eq; lia|].
      eapply Forall_impl; [exact Hy|]. unfold newer_eq. simpl. intros; lia.
Qed.

Lemma sort_versions_sorted l : newest_first (sort_versions l).
Proof.
  induction l as [|x l IH]; simpl; [constructor|by apply insert_version_sorted].
Qed.

(** The sort is stable: entries of one and the same [createdAt] keep the
    order they had. *)
Lemma insert_version_stable (t : Z) x l :
  List.filter (fun v => (v_createdAt v =? t)%Z) (insert_version x l) =
  List.filter (fun v => (v_createdAt v =? t)%Z) (x :: l).
Proof.
  induction l as [|y l IH]; [reflexivity|]. simpl.
  destruct (v_createdAt x <? v_createdAt y)%Z eqn:E; [|reflexivity].
  simpl. rewrite IH. simpl.
  destruct (v_createdAt x =? t)%Z eqn:Ex, (v_createdAt y =? t)%Z eqn:Ey; try reflexivity.
  lia.
Qed.

Lemma sort_versions_stable (t : Z) l :
  List.filter (fun v => (v_createdAt v =? t)%Z) (sort_versions l) =
  List.filter (fun v => (v_createdAt v =? t)%Z) l.
Proof.
  induction l as [|x l IH]; [reflexivity|]. simpl sort_versions.
  rewrite insert_version_stable. simpl. by rewrite IH.
Qed.

Lemma insert_commute x v l :
  insert_version x (insert_last v l) = insert_last v (insert_version x l).
Proof.
  induction l as [|y l IH]; simpl;
    repeat (case_match; simpl); rewrite ?IH; try reflexivity; lia.
Qed.

Lemma sort_versions_push l v : sort_versions (l ++ [v]) = insert_last v (sort_versions l).
Proof.
  induction l as [|x l IH]; simpl; [reflexivity|].
  by rewrite IH, insert_commute.
Qed.

Lemma filter_all_older v s :
  Forall (fun z => (v_createdAt z < v_createdAt v)%Z) s ->
  List.filter (at_least_as_new v) s = [] /\ List.filter (older v) s = s.
Proof.
  unfold at_least_as_new, older.
  induction 1 as [|z s Hz _ [IH1 IH2]]; simpl; [done|].
  replace (v_createdAt v <=? v_createdAt z)%Z with false by lia.
  replace (v_createdAt z <? v_createdAt v)%Z with true by lia.
  by rewrite IH1, IH2.
Qed.

Lemma insert_last_split v s :
  newest_first s ->
  insert_last v s = List.filter (at_least_as_new v) s ++ v :: List.filter (older v) s.
Proof.
  unfold newest_first.
  induction 1 as [|y s Hs IH Hy]; simpl; [reflexivity|].
  unfold at_least_as_new at 1, older at 1.
  destruct (v_createdAt v <=? v_createdAt y)%Z eqn:E.
  - replace (v_createdAt y <? v_createdAt v)%Z with false by lia.
    simpl. by rewrite IH.
  - replace (v_createdAt y <? v_createdAt v)%Z with true by lia.
    destruct (filter_all_older v s) as [-> ->]; [|reflexivity].
    eapply Forall_impl; [exact Hy|]. unfold newer_eq. simpl. intros; lia.
Qed.

Lemma filter_split_length v (s : list DocumentVersion) :
  length (List.filter (at_least_as_new v) s) + length (List.filter (older v) s) = length s.
Proof.
  unfold at_least_as_new, older.
  induction s as [|y s IH]; simpl; [reflexivity|].
  destruct (v_createdAt v <=? v_createdAt y)%Z eqn:E.
  - replace (v_createdAt y <? v_createdAt v)%Z with false by lia. simpl. lia.
  - replace (v_createdAt y <? v_createdAt v)%Z with true by lia. simpl. lia.
Qed.


Lemma rank_perm v l l' : Permutation l l' -> rank v l = rank v l'.
Proof.
  unfold rank. induction 1; simpl; repeat case_match; simpl; congruence.
Qed.

Lemma committed_take l v k :
  (0 <= k)%Z -> committed l v k = take (Z.to_nat k) (sort_versions (l ++ [v])).
Proof.
  intros Hk. unfold committed, slice0. cbv zeta.
  replace (k <? 0)%Z with false by lia.
  destruct (_ >? k)%Z eqn:E; [reflexivity|].
  rewrite Z.gtb_ltb, Z.ltb_ge in E.
  rewrite take_ge; [reflexivity|lia].
Qed.

Lemma committed_length l v k :
  (0 <= k)%Z -> length (committed l v k) = Nat.min (S (length l)) (Z.to_nat k).
Proof.
  intros Hk. rewrite committed_take by done.
  rewrite length_take, sort_versions_length, length_app. cbn [length]. lia.
Qed.

Lemma newest_first_take n l : newest_first l -> newest_first (take n l).
Proof.
  unfold newest_first. intros H. revert n.
  induction H as [|y s Hs IH Hy]; intros [|n]; simpl; try constructor; [apply IH|].
  apply Forall_forall. intros z Hz. rewrite Forall_forall in Hy.
  apply Hy. eapply subseteq_take, Hz.
Qed.

Lemma committed_sorted l v k : (0 <= k)%Z -> newest_first (committed l v k).
Proof.
  intros Hk. rewrite committed_take by done.
  apply newest_first_take, sort_versions_sorted.
Qed.

(** Where the pushed entry lands: behind the entries at least as new. *)
Lemma sort_push_split l v :
  sort_versions (l ++ [v]) =
  List.filter (at_least_as_new v) (sort_versions l) ++ v :: List.filter (older v) (sort_versions l).
Proof. rewrite sort_versions_push. apply insert_last_split, sort_versions_sorted. Qed.

Lemma committed_keeps l v k :
  (0 <= k)%Z -> (rank v l < Z.to_nat k)%nat -> v ∈ committed l v k.
Proof.
  intros Hk Hr. rewrite committed_take, sort_push_split by done.
  rewrite (rank_perm v _ _ (Permutation_sym (sort_versions_perm l))) in Hr.
  unfold rank in Hr.
  rewrite take_app_ge by lia.
  apply elem_of_app. right.
  destruct (Z.to_nat k - _)%nat eqn:E; [lia|]. simpl. left.
Qed.

Lemma committed_cuts l v k :
  (0 <= k)%Z -> v ∉ l -> (Z.to_nat k <= rank v l)%nat -> v ∉ committed l v k.
Proof.
  intros Hk Hv Hr H. rewrite committed_take, sort_push_split in H by done.
  rewrite (rank_perm v _ _ (Permutation_sym (sort_versions_perm l))) in Hr.
  unfold rank in Hr.
  rewrite take_app_le in H by lia.
  apply Hv. rewrite <- (sort_versions_perm l).
  apply subseteq_take in H. apply list_elem_of_In, filter_In in H as [H _].
  by apply list_elem_of_In.
Qed.

Lemma sorted_take_drop n s x d :
  newest_first s -> x ∈ take n s -> d ∈ drop n s -> newer_eq x d.
Proof.
  unfold newest_first. intros H. revert n.
  induction H as [|y s Hs IH Hy]; intros [|n]; simpl; intros Hx Hd;
    try by apply elem_of_nil in Hx.
  apply elem_of_cons in Hx as [->|Hx]; [|by eapply IH].
  rewrite Forall_forall in Hy. apply Hy. eapply subseteq_drop, Hd.
Qed.

Lemma elem_of_take_app_cons {A} (k : nat) (a b : list A) (v x : A) :
  x ∈ take k (a ++ v :: b) -> x ∈ a \/ (x = v /\ (length a < k)%nat) \/ x ∈ b.
Proof.
  intros H. destruct (decide (k <= length a)%nat) as [Hle|Hgt].
  - rewrite take_app_le in H by done. left. eapply subseteq_take, H.
  - rewrite take_app_ge in H by lia.
    apply elem_of_app in H as [H|H]; [by left|].
    destruct (k - length a)%nat eqn:E; [lia|]. simpl in H.
    apply elem_of_cons in H as [->|H]; [right; left; split; [done|lia]|].
    right; right. eapply subseteq_take, H.
Qed.

(** One commit keeps the newest entries: what it cuts is no newer than
    anything it keeps, also counting what earlier commits cut. *)
Lemma commit_step l cut v k :
  (0 <= k)%Z ->
  (forall x d, x ∈ l -> d ∈ cut -> newer_eq x d) ->
  (cut <> [] -> length l = Z.to_nat k) ->
  let l' := committed l v k in
  let now_cut := drop (Z.to_nat k) (sort_versions (l ++ [v])) in
  Permutation (l ++ [v]) (l' ++ now_cut) /\
  (forall x d, x ∈ l' -> d ∈ cut ++ now_cut -> newer_eq x d) /\
  (cut ++ now_cut <> [] -> length l' = Z.to_nat k).
Proof.
  intros Hk Hb Hfull l' now_cut. subst l' now_cut.
  rewrite committed_take by done.
  split; [|split].
  - by rewrite take_drop, sort_versions_perm.
  - intros x d Hx Hd. apply elem_of_app in Hd as [Hd|Hd].
    + rewrite sort_push_split in Hx.
      assert (Hin : forall y, y ∈ sort_versions l -> y ∈ l).
      { intros y. by rewrite sort_versions_perm. }
      apply elem_of_take_app_cons in Hx as [Hx|[[-> Hp]|Hx]].
      * apply Hb; [|done]. apply Hin, list_elem_of_In.
        apply list_elem_of_In, filter_In in Hx. tauto.
      * assert (Hl : length l = Z.to_nat k).
        { apply Hfull. intros ->. by apply elem_of_nil in Hd. }
        pose proof (filter_split_length v (sort_versions l)) as Hs.
        rewrite sort_versions_length in Hs.
        destruct (List.filter (older v) (sort_versions l)) as [|y r] eqn:F;
          [simpl in Hs; lia|].
        assert (Hy : In y (List.filter (older v) (sort_versions l))).
        { rewrite F. by left. }
        apply filter_In in Hy as [Hy1 Hy2]. unfold older in Hy2.
        specialize (Hb y d (Hin _ (proj2 (list_elem_of_In _ _) Hy1)) Hd).
        unfold newer_eq in *. lia.
      * apply Hb; [|done]. apply Hin, list_elem_of_In.
        apply list_elem_of_In, filter_In in Hx. tauto.
    + eapply sorted_take_drop; [apply sort_versions_sorted| |]; done.
  - intros Hne. rewrite length_take, sort_versions_length, length_app. cbn [length].
    destruct (decide (Z.to_nat k <= length l + 1)%nat) as [|Hgt]; [lia|].
    exfalso. apply Hne.
    rewrite drop_ge by (rewrite sort_versions_length, length_app; cbn [length]; lia).
    destruct cut as [|c cut]; [done|]. specialize (Hfull ltac:(done)). lia.
Qed.

Lemma commits_invariant k vs : forall l cut,
  (0 <= k)%Z ->
  (forall x d, x ∈ l -> d ∈ cut -> newer_eq x d) ->
  (cut <> [] -> length l = Z.to_nat k) ->
  let r := fold_left (fun l v => committed l v k) vs l in
  exists cut', Permutation (l ++ cut ++ vs) (r ++ cut') /\
               (forall x d, x ∈ r -> d ∈ cut' -> newer_eq x d).
Proof.
  induction vs as [|v vs IH]; intros l cut Hk Hb Hfull; simpl.
  - exists cut. split; [by rewrite app_nil_r|done].
  - destruct (commit_step l cut v k Hk Hb Hfull) as (Hp & Hb' & Hfull').
    destruct (IH _ _ Hk Hb' Hfull') as (cut' & Hp' & Hb'').
    exists cut'. split; [|done].
    rewrite <- Hp'.
    transitivity ((l ++ [v]) ++ cut ++ vs).
    { rewrite <- !app_assoc. apply Permutation_app_head. simpl.
      symmetry. apply Permutation_middle. }
    etrans; [apply Permutation_app_tail, Hp|].
    rewrite <- !app_assoc. apply Permutation_app_head.
    rewrite !app_assoc. apply Permutation_app_tail, Permutation_app_comm.
Qed.

Lemma addDocumentVersion_versions document version maxVersions w :
  d_versions (fst (addDocumentVersion document version maxVersions w)) =
  committed (d_versions document) version maxVersions.
Proof. reflexivity. Qed.

Lemma commit_all_versions versions : forall document maxVersions w,
  d_versions (fst (commit_all document versions maxVersions w)) =
  fold_left (fun l v => committed l v maxVersions) versions (d_versions document).
Proof.
  induction versions as [|v vs IH]; intros document k w; simpl; [reflexivity|].
  unfold bind. cbn. by rewrite IH.
Qed.

Lemma commits_length k vs : forall l,
  (0 <= k)%Z -> vs <> [] ->
  length (fold_left (fun l v => committed l v k) vs l) =
  Nat.min (length l + length vs) (Z.to_nat k).
Proof.
  induction vs as [|v vs IH]; intros l Hk Hne; [done|]. simpl.
  destruct vs as [|v' vs].
  - simpl. rewrite committed_length by done. lia.
  - rewrite IH by done. rewrite committed_length by done. cbn [length]. lia.
Qed.

Lemma commits_sorted k vs : forall l,
  (0 <= k)%Z -> vs <> [] -> newest_first (fold_left (fun l v => committed l v k) vs l).
Proof.
  induction vs as [|v vs IH]; intros l Hk Hne; [done|]. simpl.
  destruct vs as [|v' vs]; [by apply committed_sorted|by apply IH].
Qed.

(** C5. After every commit of a sequence of commits to a document, the
    ledger holds at most [maxVersions] entries (exactly [maxVersions] once
    that many exist), is ordered newest first by [createdAt], and keeps the
    most recent entries: whatever was cut is no newer than anything kept. *)
Theorem version_cap (document : Document) (version : DocumentVersion)
    (rest : list DocumentVersion) (maxVersions : Z) (w : World) :
  (0 <= maxVersions)%Z ->
  let after := d_versions (fst (commit_all document (version :: rest) maxVersions w)) in
  (Z.of_nat (length after) <= maxVersions)%Z /\
  length after =
    Nat.min (length (d_versions document) + length (version :: rest)) (Z.to_nat maxVersions) /\
  newest_first after /\
  exists cut,
    Permutation (d_versions document ++ version :: rest) (after ++ cut) /\
    forall kept gone, kept ∈ after -> gone ∈ cut ->
                      (v_createdAt gone <= v_createdAt kept)%Z.
Proof.
  intros Hk after. subst after. rewrite commit_all_versions.
  assert (Hlen := commits_length maxVersions (version :: rest) (d_versions document) Hk
                    ltac:(done)).
  split; [lia|]. split; [exact Hlen|]. split; [by apply commits_sorted|].
  destruct (commits_invariant maxVersions (version :: rest) (d_versions document) [] Hk)
    as (cut & Hp & Hb).
  - intros x d _ Hd. by apply elem_of_nil in Hd.
  - done.
  - exists cut. split; [exact Hp|]. intros kept gone Hkept Hgone. by apply Hb.
Qed.

Lemma version_cap_witness :
  let document := set_versions notes [version_at "a" 3 "Manual save"; version_at "b" 9 "Manual save"] in
  let after :=
    d_versions (fst (commit_all document
                       [version_at "c" 5 "Manual save"; version_at "d" 7 "Manual save"] 2 world0)) in
  (Z.of_nat (length after) <= 2)%Z /\
  length after = Nat.min (2 + 2) (Z.to_nat 2) /\
  newest_first after /\
  exists cut,
    Permutation ([version_at "a" 3 "Manual save"; version_at "b" 9 "Manual save"] ++
                 [version_at "c" 5 "Manual save"; version_at "d" 7 "Manual save"])
                (after ++ cut) /\
    forall kept gone, kept ∈ after -> gone ∈ cut ->
                      (v_createdAt gone <= v_createdAt kept)%Z.
Proof.
  apply (version_cap
           (set_versions notes [version_at "a" 3 "Manual save"; version_at "b" 9 "Manual save"])
           (version_at "c" 5 "Manual save") [version_at "d" 7 "Manual save"] 2 world0).
  lia.
Defined.

(** Property 8 of the design: a 51st entry on a ledger of 50 leaves 50. *)
Example cap_51_to_50 :
  length (d_versions (fst (addDocumentVersion tied_document tied_snapshot
                             defaultMaxVersions world0))) = 50%nat.
Proof. reflexivity. Qed.

(** The snapshot just committed stays exactly when fewer than [maxVersions]
    existing entries are at least as new as it is. *)
Lemma committed_keeps_iff l v k :
  (0 <= k)%Z -> v ∉ l -> (v ∈ committed l v k <-> (rank v l < Z.to_nat k)%nat).
Proof.
  intros Hk Hv. split.
  - intros Hin. destruct (decide (rank v l < Z.to_nat k)%nat) as [|Hge]; [done|].
    exfalso. apply (committed_cuts l v k); [done|done|lia|done].
  - by apply committed_keeps.
Qed.

Lemma rank_newest v l :
  Forall (fun x => (v_createdAt x < v_createdAt v)%Z) l -> rank v l = 0%nat.
Proof. intros H. unfold rank. by destruct (filter_all_older v l H) as [-> _]. Qed.

Lemma rank_le_length v l : (rank v l <= length l)%nat.
Proof. pose proof (filter_split_length v l). unfold rank. lia. Qed.

(** C6, as the code has it. For a commit with [maxVersions >= 1] of a
    snapshot that is not already in the ledger, the snapshot is in the
    ledger after the commit exactly when fewer than [maxVersions] of the
    existing entries have a [createdAt] greater than or equal to its own;
    so it stays when the ledger holds fewer than [maxVersions] entries and
    when it is strictly newer than every entry. *)
Theorem snapshot_kept_iff (document : Document) (version : DocumentVersion)
    (maxVersions : Z) (w : World) :
  (1 <= maxVersions)%Z ->
  version ∉ d_versions document ->
  let after := d_versions (fst (addDocumentVersion document version maxVersions w)) in
  (version ∈ after <-> (rank version (d_versions document) < Z.to_nat maxVersions)%nat) /\
  ((length (d_versions document) < Z.to_nat maxVersions)%nat -> version ∈ after) /\
  (Forall (fun x => (v_createdAt x < v_createdAt version)%Z) (d_versions document) ->
   version ∈ after).
Proof.
  intros Hk Hfresh after. subst after. rewrite addDocumentVersion_versions.
  split; [apply committed_keeps_iff; [lia|done]|]. split.
  - intros Hlen. apply committed_keeps; [lia|].
    pose proof (rank_le_length version (d_versions document)). lia.
  - intros Hnew. apply committed_keeps; [lia|]. rewrite rank_newest by done. lia.
Qed.

Lemma snapshot_kept_iff_witness :
  let after := d_versions (fst (addDocumentVersion notes tied_snapshot 1 world0)) in
  (tied_snapshot ∈ after <-> (rank tied_snapshot (d_versions notes) < Z.to_nat 1)%nat) /\
  ((length (d_versions notes) < Z.to_nat 1)%nat -> tied_snapshot ∈ after) /\
  (Forall (fun x => (v_createdAt x < v_createdAt tied_snapshot)%Z) (d_versions notes) ->
   tied_snapshot ∈ after).
Proof.
  apply (snapshot_kept_iff notes tied_snapshot 1 world0); [lia|].
  intros H. apply list_elem_of_In in H. vm_compute in H.
  destruct H as [H|[]]. discriminate H.
Defined.

(** C6, refuted as stated: on a ledger that holds the default 50 entries,
    all of the snapshot's own millisecond, the commit cuts the snapshot it
    was given although [maxVersions = 50 >= 1]. *)
Lemma commit_drops_tied_snapshot :
  (1 <= defaultMaxVersions)%Z /\
  length (d_versions tied_document) = Z.to_nat defaultMaxVersions /\
  Forall (fun x => v_createdAt x = v_createdAt tied_snapshot) (d_versions tied_document) /\
  tied_snapshot ∉
    d_versions (fst (addDocumentVersion tied_document tied_snapshot defaultMaxVersions world0)).
Proof.
  split; [unfold defaultMaxVersions; lia|]. split; [reflexivity|]. split.
  - unfold tied_document, tied_versions. cbn [d_versions].
    apply Forall_forall. intros x Hx. apply list_elem_of_In in Hx.
    apply in_map_iff in Hx as (n & <- & _). reflexivity.
  - intros H. apply list_elem_of_In in H. vm_compute in H.
    repeat (destruct H as [H|H]; [discriminate H|]). destruct H.
Qed.

(** ** Running the handlers *)

Lemma world_eta (w : World) :
  mkWorld (clock w) (ticks w) (uuids w) (drawn w) (toLocaleString w) (files w) (usersCache w)
          (documentsCache w) (rooms w) (adapter w) (outbox w) (console w) = w.
Proof. by destruct w. Qed.

Lemma document_eta (d : Document) :
  mkDocument (d_id d) (d_title d) (d_content d) (d_ownerId d) (d_collaborators d)
             (d_createdAt d) (d_updatedAt d) (d_versions d) = d.
Proof. by destruct d. Qed.

Lemma document_change_missing b s id content w :
  files w !! id = None -> document_change_with b s id content w = (tt, w).
Proof.
  intros Hload. unfold document_change_with, bind, loadDocument. by rewrite Hload.
Qed.

Lemma document_change_changed b s id content w doc :
  files w !! id = Some doc ->
  content <> d_content doc ->
  document_change_with b s id content w =
  let w1 := world_at_broadcast w (socket_user s) doc content in
  let (_, w2) := b s id (ev_document_updated content (u_name (socket_user s))
                           (clock w (ticks w1)))
                   (set_ticks w1 (S (ticks w1))) in
  console_log (update_line id (u_name (socket_user s))) w2.
Proof.
  intros Hload Hne. apply String.eqb_neq in Hne.
  unfold document_change_with, bind, loadDocument. rewrite Hload, Hne. cbn.
  unfold world_at_broadcast, ledger_after_edit, snapshot_due, ledger_at_check, manual_save,
    auto_snapshot. cbn.
  destruct (shouldCreateSnapshot _ _ _); cbn; reflexivity.
Qed.

Lemma document_change_unchanged b s id w doc :
  files w !! id = Some doc ->
  document_change_with b s id (d_content doc) w =
  let w1 := world_at_rebroadcast w doc in
  let (_, w2) := b s id (ev_document_updated (d_content doc) (u_name (socket_user s))
                           (clock w (ticks w1)))
                   (set_ticks w1 (S (ticks w1))) in
  console_log (update_line id (u_name (socket_user s))) w2.
Proof.
  intros Hload.
  unfold document_change_with, bind, loadDocument. rewrite Hload, String.eqb_refl. cbn.
  unfold world_at_rebroadcast. cbn. unfold set_content, set_updatedAt. cbn.
  reflexivity.
Qed.

Lemma sent_app w w' ds : outbox w' = outbox w ++ ds -> sent w w' = ds.
Proof. intros H. unfold sent. rewrite H. by rewrite drop_app_length. Qed.

(** [document-change] of the TypeScript server, content changed. *)
Lemma document_change_world s id content w doc :
  files w !! id = Some doc ->
  content <> d_content doc ->
  let user := socket_user s in
  let w1 := world_at_broadcast w user doc content in
  snd (document_change s id content w) =
  set_console
    (set_outbox (set_ticks w1 (S (ticks w1)))
       (outbox w ++ [mkDelivery (members w id)
                       (ev_document_updated content (u_name user) (clock w (ticks w1)))]))
    (console w1 ++ [update_line id (u_name user)]).
Proof.
  intros Hload Hne. unfold document_change.
  rewrite (document_change_changed _ _ _ _ _ _ Hload Hne). reflexivity.
Qed.

(** The same for the compiled server. *)
Lemma document_change_js_world s id content w doc :
  files w !! id = Some doc ->
  content <> d_content doc ->
  let user := socket_user s in
  let w1 := world_at_broadcast w user doc content in
  snd (document_change_js s id content w) =
  set_console
    (set_outbox (set_ticks w1 (S (ticks w1)))
       (outbox w ++ [mkDelivery (members w id ∖ {[ socket_id s ]})
                       (ev_document_updated content (u_name user) (clock w (ticks w1)))]))
    (console w1 ++ [update_line id (u_name user)]).
Proof.
  intros Hload Hne. unfold document_change_js.
  rewrite (document_change_changed _ _ _ _ _ _ Hload Hne). reflexivity.
Qed.

Lemma document_change_same_world s id w doc :
  files w !! id = Some doc ->
  let user := socket_user s in
  let w1 := world_at_rebroadcast w doc in
  snd (document_change s id (d_content doc) w) =
  set_console
    (set_outbox (set_ticks w1 (S (ticks w1)))
       (outbox w ++ [mkDelivery (members w id)
                       (ev_document_updated (d_content doc) (u_name user) (clock w (ticks w1)))]))
    (console w ++ [update_line id (u_name user)]).
Proof.
  intros Hload. unfold document_change.
  rewrite (document_change_unchanged _ _ _ _ _ Hload). reflexivity.
Qed.

Lemma document_change_js_same_world s id w doc :
  files w !! id = Some doc ->
  let user := socket_user s in
  let w1 := world_at_rebroadcast w doc in
  snd (document_change_js s id (d_content doc) w) =
  set_console
    (set_outbox (set_ticks w1 (S (ticks w1)))
       (outbox w ++ [mkDelivery (members w id ∖ {[ socket_id s ]})
                       (ev_document_updated (d_content doc) (u_name user) (clock w (ticks w1)))]))
    (console w ++ [update_line id (u_name user)]).
Proof.
  intros Hload. unfold document_change_js.
  rewrite (document_change_unchanged _ _ _ _ _ Hload). reflexivity.
Qed.

(** ** Edits that do not change the content *)

(** C2, as the code has it. When the content sent equals the stored
    content, no version is committed, so the ledger and the content of the
    stored document stay as they were; but the document is written back
    with a fresh [updatedAt] and [document-updated] is broadcast as for any
    edit (to the whole room by the TypeScript server, to the room but the
    sender by the compiled one). *)
Theorem same_content_change (w : World) (s : Socket) (id : string) (doc : Document) :
  files w !! id = Some doc ->
  let user := socket_user s in
  let w1 := snd (document_change s id (d_content doc) w) in
  let w1' := snd (document_change_js s id (d_content doc) w) in
  let update := ev_document_updated (d_content doc) (u_name user) (clock w (2 + ticks w)%nat) in
  files w1 = <[ d_id doc := set_updatedAt doc (clock w (1 + ticks w)%nat) ]> (files w) /\
  files w1' = files w1 /\
  (forall doc', files w1 !! d_id doc = Some doc' ->
     d_versions doc' = d_versions doc /\ d_content doc' = d_content doc /\
     d_updatedAt doc' = clock w (1 + ticks w)%nat) /\
  sent w w1 = [mkDelivery (members w id) update] /\
  sent w w1' = [mkDelivery (members w id ∖ {[ socket_id s ]}) update].
Proof.
  intros Hload user w1 w1' update. subst w1 w1'.
  rewrite (document_change_same_world _ _ _ _ Hload),
          (document_change_js_same_world _ _ _ _ Hload).
  cbn. repeat split.
  - rewrite lookup_insert_eq in H. by inversion H.
  - rewrite lookup_insert_eq in H. by inversion H.
  - rewrite lookup_insert_eq in H. by inversion H.
  - by apply sent_app.
  - by apply sent_app.
Qed.

Lemma same_content_change_witness :
  let w1 := snd (document_change socket_A "d1" (d_content notes) world0) in
  let w1' := snd (document_change_js socket_A "d1" (d_content notes) world0) in
  let update := ev_document_updated (d_content notes) "Alice" (clock world0 2%nat) in
  files w1 = <[ "d1" := set_updatedAt notes (clock world0 1%nat) ]> (files world0) /\
  files w1' = files w1 /\
  (forall doc', files w1 !! "d1" = Some doc' ->
     d_versions doc' = d_versions notes /\ d_content doc' = d_content notes /\
     d_updatedAt doc' = clock world0 1%nat) /\
  sent world0 w1 = [mkDelivery (members world0 "d1") update] /\
  sent world0 w1' = [mkDelivery (members world0 "d1" ∖ {[ "socket-A" ]}) update].
Proof.
  apply (same_content_change world0 socket_A "d1" notes). reflexivity.
Defined.

(** C2, refuted as stated: Alice sends the content the document already
    has; the stored [updatedAt] moves from 0 to the clock's reading and
    Bob's socket is sent [document-updated]. *)
Lemma same_content_is_persisted_and_broadcast :
  let w1 := snd (document_change socket_A "d1" "<p>hi</p>" world0) in
  (d_content <$> files world0 !! "d1") = Some "<p>hi</p>" /\
  (d_updatedAt <$> files world0 !! "d1") = Some 0%Z /\
  (d_updatedAt <$> files w1 !! "d1") = Some 3600001%Z /\
  files w1 <> files world0 /\
  delivered (sent world0 w1) "socket-B" (ev_document_updated "<p>hi</p>" "Alice" 3600002).
Proof.
  cbv zeta.
  split; [reflexivity|]. split; [reflexivity|]. split; [vm_compute; reflexivity|]. split.
  - intros Heq. apply (f_equal (fun m => d_updatedAt <$> m !! "d1")) in Heq.
    vm_compute in Heq. discriminate Heq.
  - eexists. split; [|split].
    + vm_compute. left. reflexivity.
    + reflexivity.
    + vm_compute. reflexivity.
Qed.

(** ** Which entries a commit keeps *)

Lemma rank_app x l1 l2 : rank x (l1 ++ l2) = (rank x l1 + rank x l2)%nat.
Proof. unfold rank. by rewrite List.filter_app, length_app. Qed.

Lemma rank_single_le x y : (rank x [y] <= 1)%nat.
Proof. unfold rank. simpl. case_match; simpl; lia. Qed.

Lemma rank_committed_le x l v k :
  (0 <= k)%Z -> (rank x (committed l v k) <= rank x l + rank x [v])%nat.
Proof.
  intros Hk. rewrite committed_take by done.
  rewrite <- rank_app.
  rewrite (rank_perm x _ _ (Permutation_sym (sort_versions_perm (l ++ [v])))).
  rewrite <- (take_drop (Z.to_nat k) (sort_versions (l ++ [v]))) at 2.
  rewrite rank_app. lia.
Qed.

(** In a ledger ordered newest first, an entry with at most [k] entries at
    least as new as itself (itself counted) is among the first [k]. *)
Lemma sorted_rank_take s : forall k x,
  newest_first s -> x ∈ s -> (rank x s <= k)%nat -> x ∈ take k s.
Proof.
  unfold newest_first, rank.
  induction s as [|y s IH]; intros k x Hs Hx Hr; [by apply elem_of_nil in Hx|].
  apply StronglySorted_inv in Hs as [Hs Hy].
  apply elem_of_cons in Hx as [->|Hx].
  - simpl in Hr. unfold at_least_as_new at 1 in Hr.
    replace (v_createdAt y <=? v_createdAt y)%Z with true in Hr by lia.
    simpl in Hr. destruct k; [lia|]. simpl. left.
  - assert (Hyx : newer_eq y x).
    { rewrite Forall_forall in Hy. by apply Hy. }
    simpl in Hr. unfold at_least_as_new at 1 in Hr. unfold newer_eq in Hyx.
    replace (v_createdAt x <=? v_createdAt y)%Z with true in Hr by lia.
    simpl in Hr. destruct k; [lia|]. simpl. right. apply IH; [done|done|lia].
Qed.

Lemma committed_retains l v k x :
  (0 <= k)%Z -> x ∈ l ++ [v] -> (rank x (l ++ [v]) <= Z.to_nat k)%nat -> x ∈ committed l v k.
Proof.
  intros Hk Hx Hr. rewrite committed_take by done.
  apply sorted_rank_take.
  - apply sort_versions_sorted.
  - by rewrite sort_versions_perm.
  - by rewrite (rank_perm x _ _ (sort_versions_perm (l ++ [v]))).
Qed.

Lemma committed_subset l v k x :
  (0 <= k)%Z -> x ∈ committed l v k -> x ∈ l \/ x = v.
Proof.
  intros Hk Hx. rewrite committed_take in Hx by done.
  apply subseteq_take in Hx. rewrite sort_versions_perm in Hx.
  apply elem_of_app in Hx as [Hx|Hx]; [by left|].
  apply list_elem_of_singleton in Hx. by right.
Qed.

Lemma defaultMaxVersions_nonneg : (0 <= defaultMaxVersions)%Z.
Proof. unfold defaultMaxVersions. lia. Qed.

Lemma ledger_after_edit_subset w user doc content v :
  v ∈ ledger_after_edit w user doc content ->
  v ∈ d_versions doc \/ v = manual_save w user content \/ v = auto_snapshot w user doc.
Proof.
  unfold ledger_after_edit, ledger_at_check. intros Hv.
  pose proof defaultMaxVersions_nonneg as Hk.
  destruct (snapshot_due _ _ _ _).
  - apply (committed_subset _ _ _ _ Hk) in Hv as [Hv| ->]; [|tauto].
    apply (committed_subset _ _ _ _ Hk) in Hv as [Hv| ->]; tauto.
  - apply (committed_subset _ _ _ _ Hk) in Hv as [Hv| ->]; tauto.
Qed.

(** The stored ledger leaves room for [n] more entries near its head:
    either it is short, or all its entries are older than the clock's
    current reading. *)
Lemma rank_room (w : World) (l : list DocumentVersion) (x : DocumentVersion) (n : nat) :
  (length l + n <= 50)%nat \/
    Forall (fun v => (v_createdAt v < clock w (ticks w))%Z) l ->
  (clock w (ticks w) <= v_createdAt x)%Z ->
  (n <= 50)%nat ->
  (rank x l + n <= 50)%nat.
Proof.
  intros [Hlen|Hold] Hx Hn.
  - pose proof (rank_le_length x l). lia.
  - rewrite rank_newest; [lia|].
    eapply Forall_impl; [exact Hold|]. simpl. intros; lia.
Qed.

Lemma manual_save_kept w user doc content :
  (length (d_versions doc) + 2 <= 50)%nat \/
    Forall (fun v => (v_createdAt v < clock w (ticks w))%Z) (d_versions doc) ->
  manual_save w user content ∈ ledger_after_edit w user doc content.
Proof.
  intros Hroom.
  assert (Hr : (rank (manual_save w user content) (d_versions doc) + 2 <= 50)%nat).
  { apply (rank_room w); [exact Hroom| |lia]. simpl. lia. }
  assert (Hin : manual_save w user content ∈ ledger_at_check w user doc content).
  { apply committed_keeps; [apply defaultMaxVersions_nonneg|].
    unfold defaultMaxVersions. lia. }
  unfold ledger_after_edit. destruct (snapshot_due _ _ _ _); [|exact Hin].
  apply committed_retains; [apply defaultMaxVersions_nonneg| |].
  - apply elem_of_app. by left.
  - rewrite rank_app.
    pose proof (rank_committed_le (manual_save w user content) (d_versions doc)
                  (manual_save w user content) defaultMaxVersions defaultMaxVersions_nonneg).
    fold (ledger_at_check w user doc content) in H.
    pose proof (rank_single_le (manual_save w user content) (manual_save w user content)).
    pose proof (rank_single_le (manual_save w user content) (auto_snapshot w user doc)).
    unfold defaultMaxVersions. lia.
Qed.

(** ** Edits that change the content *)

(** C1, as the code has it. On a change of content the handler builds and
    commits a "Manual save" version that carries the NEW content (the
    content sent with the edit) and the editing user as author. The stored
    document afterwards has the new content, and every entry of its ledger
    is an entry of the old ledger, that manual save, or the auto-snapshot
    of the policy, which is the one that carries the previous content. The
    manual save is in the stored ledger whenever the old ledger has room
    for two entries or is older than the clock's reading. *)
Theorem change_commits_new_content (w : World) (s : Socket) (id : string) (doc : Document)
    (content : string) :
  files w !! id = Some doc ->
  content <> d_content doc ->
  let user := socket_user s in
  let w1 := snd (document_change s id content w) in
  let manual := manual_save w user content in
  let snapshot := auto_snapshot w user doc in
  (v_content manual = content /\ v_authorId manual = u_id user /\
   v_changeDescription manual = Some "Manual save") /\
  (v_content snapshot = d_content doc /\ v_authorId snapshot = u_id user /\
   v_changeDescription snapshot = Some "Auto-snapshot") /\
  exists doc',
    files w1 !! d_id doc = Some doc' /\
    d_content doc' = content /\
    d_versions doc' = ledger_after_edit w user doc content /\
    (forall v, v ∈ d_versions doc' -> v ∈ d_versions doc \/ v = manual \/ v = snapshot) /\
    ((length (d_versions doc) + 2 <= 50)%nat \/
       Forall (fun v => (v_createdAt v < clock w (ticks w))%Z) (d_versions doc) ->
     manual ∈ d_versions doc').
Proof.
  intros Hload Hne user w1 manual snapshot. subst w1.
  split; [done|]. split; [done|].
  rewrite (document_change_world _ _ _ _ _ Hload Hne). cbn.
  eexists. split; [apply lookup_insert_eq|]. cbn.
  split; [reflexivity|]. split; [reflexivity|]. split.
  - apply ledger_after_edit_subset.
  - apply manual_save_kept.
Qed.

Lemma change_commits_new_content_witness :
  let w1 := snd (document_change socket_A "d1" "<p>hello</p>" world0) in
  let manual := manual_save world0 alice "<p>hello</p>" in
  let snapshot := auto_snapshot world0 alice notes in
  (v_content manual = "<p>hello</p>" /\ v_authorId manual = "A" /\
   v_changeDescription manual = Some "Manual save") /\
  (v_content snapshot = "<p>hi</p>" /\ v_authorId snapshot = "A" /\
   v_changeDescription snapshot = Some "Auto-snapshot") /\
  exists doc',
    files w1 !! "d1" = Some doc' /\
    d_content doc' = "<p>hello</p>" /\
    d_versions doc' = ledger_after_edit world0 alice notes "<p>hello</p>" /\
    (forall v, v ∈ d_versions doc' -> v ∈ d_versions notes \/ v = manual \/ v = snapshot) /\
    ((length (d_versions notes) + 2 <= 50)%nat \/
       Forall (fun v => (v_createdAt v < clock world0 (ticks world0))%Z) (d_versions notes) ->
     manual ∈ d_versions doc').
Proof.
  apply (change_commits_new_content world0 socket_A "d1" notes "<p>hello</p>").
  - reflexivity.
  - discriminate.
Defined.

(** C1, refuted as stated: Alice edits "<p>hi</p>" into "<p>hello</p>"
    while her cool-down runs. The one version committed holds
    "<p>hello</p>", and no entry of the stored ledger holds "<p>hi</p>". *)
Lemma committed_version_holds_new_content :
  let w1 := snd (document_change socket_A "d1" "<p>hello</p>" world_cooling) in
  (d_content <$> files world_cooling !! "d1") = Some "<p>hi</p>" /\
  (d_versions <$> files w1 !! "d1") =
    Some [mkVersion "uuid-0" "<p>hello</p>" 3600000 "A" "Alice" (Some "Manual save");
          mkVersion "s0" "<p>h</p>" 3599000 "A" "Alice" (Some "Auto-snapshot")] /\
  (forall doc' v, files w1 !! "d1" = Some doc' -> v ∈ d_versions doc' ->
                  v_content v <> "<p>hi</p>").
Proof.
  cbv zeta.
  assert (Hv : (d_versions <$> files (snd (document_change socket_A "d1" "<p>hello</p>"
                                             world_cooling)) !! "d1") =
    Some [mkVersion "uuid-0" "<p>hello</p>" 3600000 "A" "Alice" (Some "Manual save");
          mkVersion "s0" "<p>h</p>" 3599000 "A" "Alice" (Some "Auto-snapshot")]).
  { vm_compute. reflexivity. }
  split; [reflexivity|]. split; [exact Hv|].
  intros doc' v Hd Hin. rewrite Hd in Hv. simpl in Hv. inversion Hv as [Hvs].
  rewrite Hvs in Hin.
  apply elem_of_cons in Hin as [->|Hin]; [discriminate|].
  apply list_elem_of_singleton in Hin as ->. discriminate.
Qed.

(** ** The broadcast of an edit *)

(** The TypeScript server sends [document-updated] with the new content
    to every socket in the document's room, the author's included. *)
Lemma typescript_server_reaches_room (w : World) (s : Socket) (id content : string)
    (doc : Document) (sid : string) :
  files w !! id = Some doc ->
  sid ∈ members w id ->
  exists updatedAt,
    delivered (sent w (snd (document_change s id content w))) sid
              (ev_document_updated content (u_name (socket_user s)) updatedAt).
Proof.
  intros Hload Hsid.
  destruct (decide (content = d_content doc)) as [->|Hne].
  - rewrite (document_change_same_world _ _ _ _ Hload). cbn.
    eexists. eexists. split.
    { erewrite sent_app by reflexivity. left. reflexivity. }
    split; [reflexivity|exact Hsid].
  - rewrite (document_change_world _ _ _ _ _ Hload Hne). cbn.
    eexists. eexists. split.
    { erewrite sent_app by reflexivity. left. reflexivity. }
    split; [reflexivity|exact Hsid].
Qed.

(** The compiled server sends nothing to the socket the edit came from. *)
Lemma compiled_server_skips_sender (w : World) (s : Socket) (id content : string) (e : Event) :
  ~ delivered (sent w (snd (document_change_js s id content w))) (socket_id s) e.
Proof.
  intros (d & Hin & _ & Hto).
  destruct (files w !! id) as [doc|] eqn:Hload.
  - assert (Hd : exists e', d = mkDelivery (members w id ∖ {[ socket_id s ]}) e').
    { destruct (decide (content = d_content doc)) as [->|Hne].
      - rewrite (document_change_js_same_world _ _ _ _ Hload) in Hin. cbn in Hin.
        erewrite sent_app in Hin by reflexivity.
        destruct Hin as [<-|[]]. by eexists.
      - rewrite (document_change_js_world _ _ _ _ _ Hload Hne) in Hin. cbn in Hin.
        erewrite sent_app in Hin by reflexivity.
        destruct Hin as [<-|[]]. by eexists. }
    destruct Hd as [e' ->]. cbn in Hto.
    apply elem_of_difference in Hto as [_ Hto]. apply Hto. by apply elem_of_singleton.
  - unfold document_change_js in Hin. rewrite document_change_missing in Hin by done.
    unfold sent in Hin. cbn in Hin. rewrite drop_all in Hin. destruct Hin.
Qed.

(** C9 on the compiled server ([part_001]): Alice and Bob are in the room
    of "d1"; Alice's edit is stored and Bob is sent [document-updated],
    but no event at all is sent to Alice, the author. *)
Theorem compiled_server_skips_author :
  let w1 := snd (document_change_js socket_A "d1" "<p>hello</p>" world0) in
  "socket-A" ∈ members world0 "d1" /\
  (d_content <$> files w1 !! "d1") = Some "<p>hello</p>" /\
  delivered (sent world0 w1) "socket-B" (ev_document_updated "<p>hello</p>" "Alice" 3600007) /\
  forall e, ~ delivered (sent world0 w1) "socket-A" e.
Proof.
  cbv zeta. split; [vm_compute; reflexivity|]. split; [vm_compute; reflexivity|]. split.
  - eexists. split; [|split].
    + vm_compute. left. reflexivity.
    + reflexivity.
    + vm_compute. reflexivity.
  - intros e. apply (compiled_server_skips_sender world0 socket_A "d1" "<p>hello</p>" e).
Qed.

(** ** The auto-snapshot tag *)

(** The version the snapshot policy commits carries the tag
    "Auto-snapshot": the ledger after [createAutoSnapshot] is the old one,
    or the old one with one such version committed. *)
Lemma createAutoSnapshot_tag (document : Document) (authorId authorName : string) (w : World) :
  let after := d_versions (fst (createAutoSnapshot document authorId authorName w)) in
  after = d_versions document \/
  exists snapshot,
    v_changeDescription snapshot = Some "Auto-snapshot" /\
    v_content snapshot = d_content document /\
    v_authorId snapshot = authorId /\
    after = committed (d_versions document) snapshot defaultMaxVersions.
Proof.
  unfold createAutoSnapshot, bind. cbn.
  destruct (shouldCreateSnapshot _ _ _); cbn; [right|by left].
  exists (mkVersion (uuids w (drawn w)) (d_content document) (clock w (S (ticks w)))
            authorId authorName (Some "Auto-snapshot")).
  repeat split.
Qed.

(** C4 on the read endpoints: a version whose description is the policy's
    tag "Auto-snapshot" is reported with [isAutoSnapshot = false], because
    the endpoints look for "Auto snapshot", spelled with a space. *)
Theorem auto_snapshot_reported_false
    (id content : string) (createdAt : Z) (authorId authorName : string) :
  isAutoSnapshot
    (version_view (mkVersion id content createdAt authorId authorName (Some "Auto-snapshot")))
  = Some false.
Proof. reflexivity. Qed.

(** The same seen end to end: after Alice's first edit the ledger holds the
    policy's snapshot, and the list endpoint reports no auto-snapshot. *)
Example listed_snapshot_not_flagged :
  let w1 := snd (document_change socket_A "d1" "<p>hello</p>" world0) in
  body (fst (get_versions "d1" w1)) =
  json_versions "d1"
    [mkVersionView "uuid-1" "<p>hi</p>" 3600003 "A" "Alice" (Some "Auto-snapshot") (Some false);
     mkVersionView "uuid-0" "<p>hello</p>" 3600000 "A" "Alice" (Some "Manual save") (Some false);
     mkVersionView "v0" "<p>hi</p>" 0 "A" "Alice" (Some "Initial version") (Some false)].
Proof. vm_compute. reflexivity. Qed.

(** ** Reading a document *)

(** C10. [GET /api/documents/:id] answers from the cache alone: worlds
    with the same cache get the same answer whatever their files hold,
    and a document that is not in the cache is answered with 404
    "Document not found", whoever asks and whatever is on disk. *)
Theorem get_document_cache_only (user : User) (id : string) (w : World) :
  (forall w', documentsCache w' = documentsCache w ->
              fst (get_document user id w') = fst (get_document user id w)) /\
  (documentsCache w !! id = None ->
   get_document user id w = (mkResponse 404 (json_error "Document not found"), w)).
Proof.
  unfold get_document, bind, cache_get. split.
  - intros w' ->. destruct (documentsCache w !! id) as [d|]; [|reflexivity].
    by destruct (denied d (u_id user)).
  - by intros ->.
Qed.

Lemma get_document_cache_only_witness :
  files world0 !! "d1" = Some notes /\ d_ownerId notes = u_id alice /\
  get_document alice "d1" world0 = (mkResponse 404 (json_error "Document not found"), world0).
Proof.
  split; [reflexivity|]. split; [reflexivity|].
  apply (proj2 (get_document_cache_only alice "d1" world0)). reflexivity.
Defined.

(** ** Access checks *)

Arguments denied : simpl never.
Arguments not_owner : simpl never.

Lemma array_includes_spec (l : list string) (x : string) :
  array_includes l x = true <-> x ∈ l.
Proof.
  unfold array_includes. rewrite existsb_exists. split.
  - intros (y & Hy & Heq). apply String.eqb_eq in Heq as ->. by apply list_elem_of_In.
  - intros Hx. exists x. split; [by apply list_elem_of_In|apply String.eqb_refl].
Qed.

(** The inlined test refuses exactly the users who are neither the owner
    nor a collaborator. *)
Lemma denied_spec (document : Document) (userId : string) :
  denied document userId = true <->
  userId <> d_ownerId document /\ userId ∉ d_collaborators document.
Proof.
  unfold denied. rewrite andb_true_iff, !negb_true_iff.
  rewrite String.eqb_neq. rewrite <- not_true_iff_false, array_includes_spec.
  split; intros [H1 H2]; split; congruence.
Qed.

Lemma owner_not_denied (document : Document) :
  denied document (d_ownerId document) = false /\
  canManageCollaborators document (d_ownerId document) = true.
Proof.
  unfold canManageCollaborators, not_owner, denied. by rewrite String.eqb_refl.
Qed.

(** C3, as the code has it. For a user who is neither the owner nor a
    collaborator of a stored document: [join-document] sends "Access
    denied" to the joining socket alone and changes nothing else;
    [GET /api/documents/:id], when the document is in the cache, answers
    403 "Access denied" and changes nothing. The two version endpoints
    take no principal and answer 200 with the ledger to any caller. The
    owner passes the owner-only test: [canManageCollaborators] holds and
    neither collaborator endpoint answers 403 to the owner. *)
Theorem access_enforcement (w : World) (s : Socket) (id : string) (doc : Document) :
  files w !! id = Some doc ->
  u_id (socket_user s) <> d_ownerId doc ->
  u_id (socket_user s) ∉ d_collaborators doc ->
  let user := socket_user s in
  join_document s id w =
    (tt, set_outbox w (outbox w ++ [mkDelivery {[ socket_id s ]} (ev_error "Access denied")])) /\
  (documentsCache w !! id = Some doc ->
   get_document user id w = (mkResponse 403 (json_error "Access denied"), w)) /\
  get_versions id w =
    (mkResponse 200 (json_versions id (map version_view (d_versions doc))), w) /\
  (forall version, version ∈ d_versions doc ->
     exists found, get_version id (v_id version) w =
                   (mkResponse 200 (json_version (version_view found)), w)) /\
  canManageCollaborators doc (d_ownerId doc) = true /\
  (forall owner email collaboratorId, u_id owner = d_ownerId doc ->
     status (fst (add_collaborator owner id email w)) <> 403%nat /\
     status (fst (remove_collaborator owner id collaboratorId w)) <> 403%nat).
Proof.
  intros Hload Hown Hcol user. subst user.
  assert (Hden : denied doc (u_id (socket_user s)) = true) by (by apply denied_spec).
  split; [|split; [|split; [|split; [|split]]]].
  - unfold join_document, bind, loadDocument. rewrite Hload. cbn. by rewrite Hden.
  - intros Hcache. unfold get_document, bind, cache_get. rewrite Hcache. by rewrite Hden.
  - unfold get_versions, bind, loadDocument. by rewrite Hload.
  - intros version Hin. unfold get_version, bind, loadDocument. rewrite Hload.
    destruct (array_find _ (d_versions doc)) as [found|] eqn:Hfind; [by exists found|].
    exfalso. clear -Hin Hfind.
    induction (d_versions doc) as [|y l IH]; [by apply elem_of_nil in Hin|].
    simpl in Hfind. destruct (String.eqb (v_id y) (v_id version)) eqn:E; [done|].
    apply elem_of_cons in Hin as [->|Hin]; [by rewrite String.eqb_refl in E|by apply IH].
  - apply owner_not_denied.
  - intros owner email collaboratorId Howner.
    assert (Hno : not_owner doc (u_id owner) = false).
    { unfold not_owner. by rewrite Howner, String.eqb_refl. }
    split.
    + unfold add_collaborator, bind, loadDocument. rewrite Hload, Hno. cbn.
      destruct (array_find _ _) as [c|]; cbn; [|done].
      destruct (String.eqb (u_id c) (d_ownerId doc)); cbn; [done|].
      destruct (negb _); cbn; done.
    + unfold remove_collaborator, bind, loadDocument. rewrite Hload, Hno. cbn.
      destruct (negb _); cbn; done.
Qed.

Lemma access_enforcement_witness :
  join_document socket_M "d1" world0 =
    (tt, set_outbox world0
           (outbox world0 ++ [mkDelivery {[ "socket-M" ]} (ev_error "Access denied")])) /\
  (documentsCache world0 !! "d1" = Some notes ->
   get_document mallory "d1" world0 = (mkResponse 403 (json_error "Access denied"), world0)) /\
  get_versions "d1" world0 =
    (mkResponse 200 (json_versions "d1" (map version_view (d_versions notes))), world0) /\
  (forall version, version ∈ d_versions notes ->
     exists found, get_version "d1" (v_id version) world0 =
                   (mkResponse 200 (json_version (version_view found)), world0)) /\
  canManageCollaborators notes (d_ownerId notes) = true /\
  (forall owner email collaboratorId, u_id owner = d_ownerId notes ->
     status (fst (add_collaborator owner "d1" email world0)) <> 403%nat /\
     status (fst (remove_collaborator owner "d1" collaboratorId world0)) <> 403%nat).
Proof.
  apply (access_enforcement world0 socket_M "d1" notes).
  - reflexivity.
  - discriminate.
  - intros H. apply list_elem_of_In in H. simpl in H. destruct H as [H|[]]. discriminate H.
Defined.

(** C3, refuted as stated: Mallory is neither the owner nor a
    collaborator of "d1", yet her [document-change] overwrites the stored
    content without any error event, and both version endpoints answer 200
    with the document's versions. *)
Lemma stranger_edits_and_reads_versions :
  let w1 := snd (document_change socket_M "d1" "<p>pwned</p>" world0) in
  files world0 !! "d1" = Some notes /\
  denied notes (u_id mallory) = true /\
  (d_content <$> files w1 !! "d1") = Some "<p>pwned</p>" /\
  map event (sent world0 w1) = [ev_document_updated "<p>pwned</p>" "Mallory" 3600007] /\
  fst (get_versions "d1" world0) =
    mkResponse 200 (json_versions "d1"
      [mkVersionView "v0" "<p>hi</p>" 0 "A" "Alice" (Some "Initial version") (Some false)]) /\
  fst (get_version "d1" "v0" world0) =
    mkResponse 200 (json_version
      (mkVersionView "v0" "<p>hi</p>" 0 "A" "Alice" (Some "Initial version") (Some false))).
Proof.
  cbv zeta. repeat split; vm_compute; reflexivity.
Qed.

(** ** Restoring a version *)

(** C8, as the code has it. For a user with write access to a stored
    document: if the ledger has no version of the given id, the answer is
    404 "Version not found" and nothing changes. Otherwise a version
    holding the content of before the restore, authored by the user, is
    committed to the ledger (pushed, sorted newest first, cut to 50)
    before the content is touched; the content becomes the target's; the
    document is stored and cached; and the ledger's length is one more
    than before, up to the cap of 50. That version is in the stored ledger
    exactly when fewer than 50 of the existing entries are at least as new
    as it is (its id taken to be fresh); so it is kept when the ledger had
    room, and when every entry was older than the clock's reading. *)
Theorem restore_safety (w : World) (user : User) (id versionId : string) (doc : Document) :
  files w !! id = Some doc ->
  denied doc (u_id user) = false ->
  let result := restore_version user id versionId w in
  match array_find (fun v => String.eqb (v_id v) versionId) (d_versions doc) with
  | None => result = (mkResponse 404 (json_error "Version not found"), w)
  | Some target =>
      let before :=
        mkVersion (uuids w (drawn w)) (d_content doc) (clock w (ticks w))
          (u_id user) (u_name user)
          (Some ("Auto-save before restoring to version from " +:+
                 toLocaleString w (v_createdAt target))) in
      status (fst result) = 200%nat /\
      exists doc',
        files (snd result) !! d_id doc = Some doc' /\
        (d_content <$> documentsCache (snd result) !! id) = Some (v_content target) /\
        d_versions doc' = committed (d_versions doc) before defaultMaxVersions /\
        d_content doc' = v_content target /\
        length (d_versions doc') = Nat.min (S (length (d_versions doc))) 50 /\
        ((length (d_versions doc) < 50)%nat \/
           Forall (fun v => (v_createdAt v < clock w (ticks w))%Z) (d_versions doc) ->
         before ∈ d_versions doc') /\
        (before ∉ d_versions doc ->
         (before ∈ d_versions doc' <-> (rank before (d_versions doc) < 50)%nat))
  end.
Proof.
  intros Hload Hden result. subst result.
  unfold restore_version, bind, loadDocument. rewrite Hload, Hden.
  destruct (array_find _ (d_versions doc)) as [target|]; [|reflexivity].
  cbn. split; [reflexivity|].
  eexists. split; [apply lookup_insert_eq|]. cbn.
  split; [by rewrite lookup_insert_eq|]. split; [reflexivity|]. split; [reflexivity|].
  split; [|split].
  - rewrite committed_length by apply defaultMaxVersions_nonneg. reflexivity.
  - intros Hroom. apply committed_keeps; [apply defaultMaxVersions_nonneg|].
    match goal with |- (rank ?x _ < _)%nat =>
      pose proof (rank_room w (d_versions doc) x 1) as Hr end.
    unfold defaultMaxVersions. cbn in Hr.
    assert (rank_ok : (length (d_versions doc) + 1 <= 50)%nat \/
              Forall (fun v => (v_createdAt v < clock w (ticks w))%Z) (d_versions doc)).
    { destruct Hroom; [left; lia|by right]. }
    specialize (Hr rank_ok ltac:(lia) ltac:(lia)). lia.
  - intros Hfresh.
    apply (committed_keeps_iff _ _ defaultMaxVersions defaultMaxVersions_nonneg Hfresh).
Qed.

(** Bob restores the first version of [drafted_notes]: the draft is kept
    as a version of its own and the content goes back to "<p>hi</p>". *)
Lemma restore_safety_witness :
  let result := restore_version bob "d1" "v0" world_draft in
  let before :=
    mkVersion "uuid-0" "<p>draft</p>" 3600000 "B" "Bob"
      (Some ("Auto-save before restoring to version from " +:+ toLocaleString world_draft 0)) in
  status (fst result) = 200%nat /\
  exists doc',
    files (snd result) !! "d1" = Some doc' /\
    (d_content <$> documentsCache (snd result) !! "d1") = Some "<p>hi</p>" /\
    d_versions doc' = committed (d_versions drafted_notes) before defaultMaxVersions /\
    d_content doc' = "<p>hi</p>" /\
    length (d_versions doc') = Nat.min 2 50 /\
    ((length (d_versions drafted_notes) < 50)%nat \/
       Forall (fun v => (v_createdAt v < clock world_draft (ticks world_draft))%Z)
              (d_versions drafted_notes) ->
     before ∈ d_versions doc') /\
    (before ∉ d_versions drafted_notes ->
     (before ∈ d_versions doc' <-> (rank before (d_versions drafted_notes) < 50)%nat)).
Proof.
  apply (restore_safety world_draft bob "d1" "v0" drafted_notes); reflexivity.
Defined.

(** The restore of the witness, run: the draft is the newest entry of the
    stored ledger and the restored content is the first version's. *)
Example restore_keeps_draft :
  let result := restore_version bob "d1" "v0" world_draft in
  (d_content <$> files world_draft !! "d1") = Some "<p>draft</p>" /\
  (d_content <$> files (snd result) !! "d1") = Some "<p>hi</p>" /\
  (map v_content <$> (d_versions <$> files (snd result) !! "d1")) =
    Some ["<p>draft</p>"; "<p>hi</p>"].
Proof. cbv zeta. repeat split; vm_compute; reflexivity. Qed.

(** C8, refuted as stated: the ledger of "d2" holds the default 50
    entries, all of the millisecond the clock reads when the restore
    builds its version of the current content "<p>busy</p>". The restore
    answers 200 and sets the content to the target's "<p>old</p>"; the
    stored ledger is the one of before, entry for entry, and none of its
    versions holds "<p>busy</p>". *)
Lemma restore_drops_previous_content :
  let result := restore_version alice "d2" "v0" world_tied in
  files world_tied !! "d2" = Some tied_document /\
  denied tied_document (u_id alice) = false /\
  d_content tied_document = "<p>busy</p>" /\
  d_versions tied_document = tied_versions /\
  status (fst result) = 200%nat /\
  (d_content <$> files (snd result) !! "d2") = Some "<p>old</p>" /\
  (d_versions <$> files (snd result) !! "d2") = Some tied_versions /\
  (forall doc' v, files (snd result) !! "d2" = Some doc' -> v ∈ d_versions doc' ->
                  v_content v <> "<p>busy</p>").
Proof.
  cbv zeta.
  assert (Hv : (d_versions <$> files (snd (restore_version alice "d2" "v0" world_tied)) !! "d2")
               = Some tied_versions).
  { vm_compute. reflexivity. }
  do 6 (split; [vm_compute; reflexivity|]). split; [exact Hv|].
  intros doc' v Hd Hin. rewrite Hd in Hv. simpl in Hv. inversion Hv as [Hvs].
  rewrite Hvs in Hin. apply list_elem_of_In in Hin.
  apply in_map_iff in Hin as (n & <- & _). discriminate.
Qed.

(** ** The snapshot policy *)

Arguments committed : simpl never.
Arguments is_snapshot_of : simpl never.
Arguments shouldCreateSnapshot : simpl never.
Arguments snapshot_line : simpl never.
Arguments update_line : simpl never.

Lemma array_find_none {A} (p : A -> bool) (l : list A) :
  array_find p l = None <-> forall x, x ∈ l -> p x = false.
Proof.
  induction l as [|y l IH]; simpl.
  - split; [|done]. intros _ x Hx. by apply elem_of_nil in Hx.
  - destruct (p y) eqn:E.
    + split; [done|]. intros H. rewrite (H y) in E; [done|by left].
    + rewrite IH. split.
      * intros H x Hx. apply elem_of_cons in Hx as [->|Hx]; [done|by apply H].
      * intros H x Hx. apply H. by right.
Qed.

Lemma array_find_some {A} (p : A -> bool) (l : list A) (x : A) :
  array_find p l = Some x -> x ∈ l /\ p x = true.
Proof.
  induction l as [|y l IH]; simpl; [done|].
  destruct (p y) eqn:E.
  - intros [= <-]. split; [by left|done].
  - intros H. destruct (IH H). split; [by right|done].
Qed.

Lemma array_find_unique {A} (p : A -> bool) (l : list A) (x : A) :
  x ∈ l -> p x = true -> (forall y, y ∈ l -> p y = true -> y = x) ->
  array_find p l = Some x.
Proof.
  intros Hx Hp Huniq.
  destruct (array_find p l) as [y|] eqn:Hfind.
  - apply array_find_some in Hfind as [Hy Hpy]. f_equal. by apply Huniq.
  - rewrite array_find_none in Hfind. rewrite (Hfind x Hx) in Hp. done.
Qed.









Lemma ledger_at_check_sorted w user doc content :
  newest_first (ledger_at_check w user doc content).
Proof. apply committed_sorted, defaultMaxVersions_nonneg. Qed.













(** The same from [world0], over a run of quick edits: the snapshot of the
    first edit leaves the ledger with the 51st, which creates the second
    auto-snapshot of the run, 310 milliseconds after the first edit. *)
Example quick_edits_snapshot_again :
  snapshots_created "d1" "Alice" world0 (edits 50 world0) = 1%nat /\
  snapshots_created "d1" "Alice" world0 (edits 51 world0) = 2%nat /\
  (clock world0 (ticks (edits 51 world0)) - clock world0 (ticks world0) = 310)%Z.
Proof. repeat split; vm_compute; reflexivity. Qed.

(** Why the two-edit rule asks for room in the ledger or entries older
    than the clock: on 50 entries of the millisecond in which both edits
    run, each edit logs an auto-snapshot and the commit cuts it at once. *)
Example tied_edits_snapshot_twice :
  let w1 := snd (document_change socket_A "d2" "<p>a</p>" world_frozen) in
  let w2 := snd (document_change socket_A "d2" "<p>b</p>" w1) in
  snapshots_created "d2" "Alice" world_frozen w1 = 1%nat /\
  snapshots_created "d2" "Alice" world_frozen w2 = 2%nat /\
  (d_versions <$> files w2 !! "d2") = Some tied_versions.
Proof. cbv zeta. repeat split; vm_compute; reflexivity. Qed.

(** * Further properties of the server *)

(** ** Files *)












(** ** Creating and updating documents over HTTP *)

Lemma denied_owner (document : Document) (userId : string) :
  userId = d_ownerId document -> denied document userId = false.
Proof. intros ->. apply owner_not_denied. Qed.

(** The world [POST /api/documents] leaves. *)
Lemma create_document_world (user : User) (title content : option string) (w : World) :
  let document :=
    mkDocument (uuids w (drawn w)) (or_default title "Untitled Document")
      (or_default content "<p>Start typing here...</p>") (u_id user) []
      (clock w (ticks w)) (clock w (1 + ticks w)%nat)
      [mkVersion (uuids w (1 + drawn w)%nat) (or_default content "<p>Start typing here...</p>")
         (clock w (2 + ticks w)%nat) (u_id user) (u_name user) (Some "Initial version")] in
  create_document user title content w =
  (mkResponse 201 (json_document document),
   mkWorld (clock w) (4 + ticks w)%nat (uuids w) (2 + drawn w)%nat (toLocaleString w)
     (<[ d_id document := set_updatedAt document (clock w (3 + ticks w)%nat) ]> (files w))
     (usersCache w) (<[ d_id document := document ]> (documentsCache w))
     (<[ d_id document := mkRoom (d_id document) [] ]> (rooms w))
     (adapter w) (outbox w) (console w)).
Proof. reflexivity. Qed.

(** A document just created is stored, cached and given an empty room:
    its creator reads it back with [GET /api/documents/:id], any other
    user is refused, and its ledger is the one "Initial version" holding
    its content. *)
Theorem create_then_read (user : User) (title content : option string) (w : World) :
  let id := uuids w (drawn w) in
  let w1 := snd (create_document user title content w) in
  exists document,
    fst (create_document user title content w) = mkResponse 201 (json_document document) /\
    d_id document = id /\
    d_ownerId document = u_id user /\
    d_collaborators document = [] /\
    d_title document = or_default title "Untitled Document" /\
    d_content document = or_default content "<p>Start typing here...</p>" /\
    d_versions document =
      [mkVersion (uuids w (S (drawn w))) (d_content document) (clock w (2 + ticks w)%nat)
         (u_id user) (u_name user) (Some "Initial version")] /\
    get_document user id w1 = (mkResponse 200 (json_document document), w1) /\
    (forall other, u_id other <> u_id user ->
       get_document other id w1 = (mkResponse 403 (json_error "Access denied"), w1)) /\
    fst (loadDocument id w1) = Some (set_updatedAt document (clock w (3 + ticks w)%nat)) /\
    rooms w1 !! id = Some (mkRoom id []).
Proof.
  cbv zeta. rewrite create_document_world. cbv zeta. cbn [fst snd].
  set (document := mkDocument _ _ _ _ _ _ _ _).
  set (w1 := mkWorld _ _ _ _ _ _ _ _ _ _ _ _).
  assert (Hcache : documentsCache w1 !! uuids w (drawn w) = Some document).
  { apply lookup_insert_eq. }
  exists document. do 7 (split; [reflexivity|]).
  split; [|split; [|split]].
  - unfold get_document, bind, cache_get. rewrite Hcache.
    by rewrite (denied_owner document (u_id user)).
  - intros other Hother. unfold get_document, bind, cache_get. rewrite Hcache.
    assert (Hd : denied document (u_id other) = true).
    { apply denied_spec. split; [done|]. apply not_elem_of_nil. }
    by rewrite Hd.
  - apply lookup_insert_eq.
  - apply lookup_insert_eq.
Qed.

Lemma create_then_read_witness :
  let w1 := snd (create_document alice (Some "Plan") None world0) in
  exists document,
    fst (create_document alice (Some "Plan") None world0) =
      mkResponse 201 (json_document document) /\
    d_id document = "uuid-0" /\
    d_title document = "Plan" /\
    d_content document = "<p>Start typing here...</p>" /\
    get_document alice "uuid-0" w1 = (mkResponse 200 (json_document document), w1) /\
    get_document bob "uuid-0" w1 = (mkResponse 403 (json_error "Access denied"), w1).
Proof.
  cbv zeta.
  destruct (create_then_read alice (Some "Plan") None world0)
    as (document & Hr & Hid & _ & _ & Ht & Hc & _ & Hget & Hother & _).
  exists document. split; [exact Hr|]. split; [exact Hid|]. split; [exact Ht|].
  split; [exact Hc|]. split; [exact Hget|]. apply Hother. discriminate.
Defined.

(** [PUT /api/documents/:id] refuses without touching anything: 404 for a
    document that is not on disk, 403 for a user who is neither its owner
    nor a collaborator. *)
Theorem put_document_refused (user : User) (id : string) (title content : option string)
    (w : World) :
  (files w !! id = None ->
   put_document user id title content w =
     (mkResponse 404 (json_error "Document not found"), w)) /\
  (forall doc, files w !! id = Some doc -> denied doc (u_id user) = true ->
   put_document user id title content w = (mkResponse 403 (json_error "Access denied"), w)).
Proof.
  unfold put_document, bind, loadDocument. split.
  - by intros ->.
  - intros doc -> Hd. cbn. by rewrite Hd.
Qed.

Lemma put_document_refused_witness :
  put_document alice "nowhere" None (Some "<p>x</p>") world0 =
    (mkResponse 404 (json_error "Document not found"), world0) /\
  put_document mallory "d1" None (Some "<p>x</p>") world0 =
    (mkResponse 403 (json_error "Access denied"), world0).
Proof.
  split.
  - apply (proj1 (put_document_refused alice "nowhere" None (Some "<p>x</p>") world0)).
    reflexivity.
  - apply (proj2 (put_document_refused mallory "d1" None (Some "<p>x</p>") world0) notes);
      reflexivity.
Defined.

Lemma or_default_truthy (field : option string) (a b : string) :
  truthy field = true -> or_default field a = or_default field b.
Proof.
  destruct field as [s|]; [|done]. simpl. by destruct (String.eqb s "").
Qed.

(** A [PUT] by a user with access answers with the document it stored and
    cached, so a [GET] that follows returns it. With a content that is
    non-empty and differs from the stored one, the ledger gets one
    "Content updated" version holding the new content, pushed at its end:
    no sort and no cut, one entry more whatever the length was. With no
    content, or the empty or the same content, content and ledger stay. *)
Theorem put_then_read (user : User) (id : string) (title content : option string)
    (w : World) (doc : Document) :
  files w !! id = Some doc ->
  denied doc (u_id user) = false ->
  let changed := truthy content && negb (String.eqb (or_default content "") (d_content doc)) in
  let w1 := snd (put_document user id title content w) in
  exists doc',
    fst (put_document user id title content w) = mkResponse 200 (json_document doc') /\
    d_title doc' = or_default title (d_title doc) /\
    d_content doc' = or_default content (d_content doc) /\
    d_versions doc' =
      (if changed
       then d_versions doc ++
            [mkVersion (uuids w (drawn w)) (d_content doc') (clock w (ticks w))
               (u_id user) (u_name user) (Some "Content updated")]
       else d_versions doc) /\
    length (d_versions doc') = (length (d_versions doc) + if changed then 1 else 0)%nat /\
    get_document user id w1 = (mkResponse 200 (json_document doc'), w1) /\
    (exists t, files w1 !! d_id doc = Some (set_updatedAt doc' t)).
Proof.
  intros Hload Hden changed w1. subst w1.
  unfold put_document, bind, loadDocument. rewrite Hload. cbn. rewrite Hden.
  fold changed. destruct changed eqn:Hch; cbn.
  - apply andb_true_iff in Hch as [Htruthy _].
    eexists. split; [reflexivity|]. cbn. split; [reflexivity|]. split; [reflexivity|].
    split; [by rewrite (or_default_truthy content "" (d_content doc))|]. split; [by rewrite length_app; cbn; lia|]. split.
    + unfold get_document, bind, cache_get. cbn. rewrite lookup_insert_eq.
      change (denied _ (u_id user)) with (denied doc (u_id user)). by rewrite Hden.
    + eexists. apply lookup_insert_eq.
  - eexists. split; [reflexivity|]. cbn. split; [reflexivity|]. split; [reflexivity|].
    split; [reflexivity|]. split; [lia|]. split.
    + unfold get_document, bind, cache_get. cbn. rewrite lookup_insert_eq.
      change (denied _ (u_id user)) with (denied doc (u_id user)). by rewrite Hden.
    + eexists. apply lookup_insert_eq.
Qed.

Lemma put_then_read_witness :
  let user := bob in
  let doc := set_versions notes tied_versions in
  let w := set_files world0 {[ "d1" := doc ]} in
  let w1 := snd (put_document user "d1" None (Some "<p>more</p>") w) in
  exists doc',
    fst (put_document user "d1" None (Some "<p>more</p>") w) =
      mkResponse 200 (json_document doc') /\
    d_title doc' = "Notes" /\
    d_content doc' = "<p>more</p>" /\
    d_versions doc' =
      tied_versions ++
      [mkVersion (uuids w (drawn w)) (d_content doc') (clock w (ticks w))
         "B" "Bob" (Some "Content updated")] /\
    length (d_versions doc') = 51%nat /\
    get_document user "d1" w1 = (mkResponse 200 (json_document doc'), w1) /\
    (exists t, files w1 !! "d1" = Some (set_updatedAt doc' t)).
Proof.
  apply (put_then_read bob "d1" None (Some "<p>more</p>")
           (set_files world0 {[ "d1" := set_versions notes tied_versions ]})
           (set_versions notes tied_versions)); reflexivity.
Defined.

(** ** Edits and the cache *)

Lemma document_change_with_cache b s id content w :
  (forall sk r e w0, documentsCache (snd (b sk r e w0)) = documentsCache w0) ->
  documentsCache (snd (document_change_with b s id content w)) = documentsCache w.
Proof.
  intros Hb. destruct (files w !! id) as [doc|] eqn:Hload.
  - destruct (decide (content = d_content doc)) as [->|Hne].
    + rewrite (document_change_unchanged _ _ _ _ _ Hload). cbv zeta.
      destruct (b _ _ _ _) as [u w2] eqn:Hrun. cbn.
      match type of Hrun with b ?x1 ?x2 ?x3 ?x4 = _ => pose proof (Hb x1 x2 x3 x4) as Hf end.
      rewrite Hrun in Hf. exact Hf.
    + rewrite (document_change_changed _ _ _ _ _ _ Hload Hne). cbv zeta.
      destruct (b _ _ _ _) as [u w2] eqn:Hrun. cbn.
      match type of Hrun with b ?x1 ?x2 ?x3 ?x4 = _ => pose proof (Hb x1 x2 x3 x4) as Hf end.
      rewrite Hrun in Hf. exact Hf.
  - by rewrite document_change_missing.
Qed.

Lemma get_document_reads_cache user id w w' :
  documentsCache w' = documentsCache w ->
  fst (get_document user id w') = fst (get_document user id w).
Proof.
  intros Heq. unfold get_document, bind, cache_get. rewrite Heq.
  destruct (documentsCache w !! id) as [d|]; [|reflexivity].
  by destruct (denied d (u_id user)).
Qed.

(** [document-change] writes the file and never the cache. So when the
    document is cached, [GET /api/documents/:id] after an edit still answers
    with the cached copy and its old content, while the file holds the new
    content. *)
Theorem edit_leaves_cache_stale (w : World) (s : Socket) (user : User) (id content : string)
    (doc : Document) :
  files w !! id = Some doc ->
  d_id doc = id ->
  documentsCache w !! id = Some doc ->
  denied doc (u_id user) = false ->
  content <> d_content doc ->
  let w1 := snd (document_change s id content w) in
  let w1' := snd (document_change_js s id content w) in
  documentsCache w1 = documentsCache w /\
  documentsCache w1' = documentsCache w /\
  get_document user id w1 = (mkResponse 200 (json_document doc), w1) /\
  get_document user id w1' = (mkResponse 200 (json_document doc), w1') /\
  (d_content <$> fst (loadDocument id w1)) = Some content /\
  (d_content <$> fst (loadDocument id w1')) = Some content.
Proof.
  intros Hload Hid Hcache Hden Hne w1 w1'.
  assert (Hc : documentsCache w1 = documentsCache w).
  { apply document_change_with_cache. reflexivity. }
  assert (Hc' : documentsCache w1' = documentsCache w).
  { apply document_change_with_cache. reflexivity. }
  split; [exact Hc|]. split; [exact Hc'|].
  split; [|split; [|split]].
  - unfold get_document, bind, cache_get. by rewrite Hc, Hcache, Hden.
  - unfold get_document, bind, cache_get. by rewrite Hc', Hcache, Hden.
  - subst w1. rewrite (document_change_world _ _ _ _ _ Hload Hne).
    unfold loadDocument. cbn. rewrite <- Hid. by rewrite lookup_insert_eq.
  - subst w1'. rewrite (document_change_js_world _ _ _ _ _ Hload Hne).
    unfold loadDocument. cbn. rewrite <- Hid. by rewrite lookup_insert_eq.
Qed.

Lemma edit_leaves_cache_stale_witness :
  let w := set_documentsCache world0 {[ "d1" := notes ]} in
  let w1 := snd (document_change socket_A "d1" "<p>hello</p>" w) in
  let w1' := snd (document_change_js socket_A "d1" "<p>hello</p>" w) in
  documentsCache w1 = documentsCache w /\
  documentsCache w1' = documentsCache w /\
  get_document bob "d1" w1 = (mkResponse 200 (json_document notes), w1) /\
  get_document bob "d1" w1' = (mkResponse 200 (json_document notes), w1') /\
  (d_content <$> fst (loadDocument "d1" w1)) = Some "<p>hello</p>" /\
  (d_content <$> fst (loadDocument "d1" w1')) = Some "<p>hello</p>".
Proof.
  apply (edit_leaves_cache_stale (set_documentsCache world0 {[ "d1" := notes ]})
           socket_A bob "d1" "<p>hello</p>" notes);
    [reflexivity|reflexivity|reflexivity|reflexivity|discriminate].
Defined.

(** ** Edits and the order of the ledger *)

Lemma ledger_after_edit_sorted w user doc content :
  newest_first (ledger_after_edit w user doc content).
Proof.
  unfold ledger_after_edit. destruct (snapshot_due _ _ _ _).
  - apply committed_sorted, defaultMaxVersions_nonneg.
  - apply ledger_at_check_sorted.
Qed.

Lemma ledger_after_edit_length w user doc content :
  (length (ledger_after_edit w user doc content) <= 50)%nat.
Proof.
  unfold ledger_after_edit, ledger_at_check. destruct (snapshot_due _ _ _ _);
    rewrite !committed_length by apply defaultMaxVersions_nonneg;
    unfold defaultMaxVersions; lia.
Qed.

(** Whatever state the stored ledger is in (a [PUT] pushes at its end and
    never cuts), an edit through the socket that changes the content
    leaves a stored ledger ordered newest first and of at most 50 entries. *)
Theorem edit_restores_ledger (w : World) (s : Socket) (id content : string) (doc : Document) :
  files w !! id = Some doc ->
  content <> d_content doc ->
  let w1 := snd (document_change s id content w) in
  exists doc',
    files w1 !! d_id doc = Some doc' /\
    newest_first (d_versions doc') /\
    (length (d_versions doc') <= 50)%nat.
Proof.
  intros Hload Hne w1. subst w1.
  rewrite (document_change_world _ _ _ _ _ Hload Hne). cbn.
  eexists. split; [apply lookup_insert_eq|]. cbn. split.
  - apply ledger_after_edit_sorted.
  - apply ledger_after_edit_length.
Qed.

Lemma edit_restores_ledger_witness :
  let doc := set_versions notes (tied_versions ++ [version_at "late" 9 "Content updated"]) in
  let w := set_files world0 {[ "d1" := doc ]} in
  let w1 := snd (document_change socket_A "d1" "<p>hello</p>" w) in
  length (d_versions doc) = 51%nat /\
  exists doc',
    files w1 !! "d1" = Some doc' /\
    newest_first (d_versions doc') /\
    (length (d_versions doc') <= 50)%nat.
Proof.
  split; [reflexivity|].
  apply (edit_restores_ledger
           (set_files world0
              {[ "d1" := set_versions notes
                           (tied_versions ++ [version_at "late" 9 "Content updated"]) ]})
           socket_A "d1" "<p>hello</p>"
           (set_versions notes (tied_versions ++ [version_at "late" 9 "Content updated"]))).
  - reflexivity.
  - discriminate.
Defined.

(** ** Manual versions over HTTP *)

(** [POST /api/documents/:id/versions] answers 200 with a version that
    holds the document's content, whatever the cool-down says, but stores
    nothing: files and cache are as before, and the version endpoints
    answer afterwards exactly as they did before. *)
Theorem create_version_not_stored (user : User) (id : string)
    (changeDescription : option string) (w : World) (doc : Document) :
  files w !! id = Some doc ->
  let w1 := snd (create_version user id changeDescription w) in
  fst (create_version user id changeDescription w) =
    mkResponse 200
      (json_version
         (mkVersionView (uuids w (drawn w)) (d_content doc) (clock w (ticks w))
            (u_id user) (u_name user)
            (Some (or_default changeDescription "Manual save")) None)) /\
  files w1 = files w /\
  documentsCache w1 = documentsCache w /\
  fst (get_versions id w1) = fst (get_versions id w) /\
  (forall versionId, fst (get_version id versionId w1) = fst (get_version id versionId w)).
Proof.
  intros Hload w1. subst w1.
  unfold create_version, bind, loadDocument. rewrite Hload. cbn.
  repeat split.
  - by rewrite Hload.
  - intros versionId. rewrite Hload. by destruct (array_find _ _).
Qed.

Lemma create_version_not_stored_witness :
  let w1 := snd (create_version alice "d1" (Some "Before rewrite") world0) in
  fst (create_version alice "d1" (Some "Before rewrite") world0) =
    mkResponse 200
      (json_version
         (mkVersionView "uuid-0" "<p>hi</p>" 3600000 "A" "Alice" (Some "Before rewrite") None)) /\
  files w1 = files world0 /\
  documentsCache w1 = documentsCache world0 /\
  fst (get_versions "d1" w1) = fst (get_versions "d1" world0) /\
  (forall versionId,
     fst (get_version "d1" versionId w1) = fst (get_version "d1" versionId world0)).
Proof. apply (create_version_not_stored alice "d1" (Some "Before rewrite") world0 notes).
  reflexivity.
Defined.

(** ** The read-through cache helper *)

(** [getDocumentWithCache] answers with the cached copy when there is one
    and with the file otherwise; it never writes a file; what it returned
    is cached afterwards, so a second call returns the same and changes
    nothing, whatever the file has become. *)
Theorem getDocumentWithCache_read_through (documentId : string) (w : World) :
  let result := fst (getDocumentWithCache documentId w) in
  let w1 := snd (getDocumentWithCache documentId w) in
  result = (match documentsCache w !! documentId with
            | Some document => Some document
            | None => files w !! documentId
            end) /\
  files w1 = files w /\
  documentsCache w1 !! documentId = result /\
  (forall w2, documentsCache w2 = documentsCache w1 -> is_Some result ->
              getDocumentWithCache documentId w2 = (result, w2)).
Proof.
  cbv zeta. unfold getDocumentWithCache, bind, cache_get, loadDocument.
  destruct (documentsCache w !! documentId) as [d|] eqn:Hc; cbn.
  - repeat split; [done|]. intros w2 Hw2 _. by rewrite Hw2, Hc.
  - destruct (files w !! documentId) as [d|] eqn:Hf; cbn.
    + repeat split; [apply lookup_insert_eq|].
      intros w2 Hw2 _. rewrite Hw2. cbn. by rewrite lookup_insert_eq.
    + repeat split; [done|]. intros w2 _ [d Hd]. discriminate Hd.
Qed.

Lemma getDocumentWithCache_read_through_witness :
  let result := fst (getDocumentWithCache "d1" world0) in
  let w1 := snd (getDocumentWithCache "d1" world0) in
  documentsCache world0 !! "d1" = None /\
  result = Some notes /\
  files w1 = files world0 /\
  documentsCache w1 !! "d1" = Some notes /\
  getDocumentWithCache "d1" (set_files w1 ∅) = (Some notes, set_files w1 ∅).
Proof.
  cbv zeta. destruct (getDocumentWithCache_read_through "d1" world0) as (Hr & Hf & Hc & Hagain).
  split; [reflexivity|]. split; [exact Hr|]. split; [exact Hf|]. split; [exact Hc|].
  apply (Hagain (set_files (snd (getDocumentWithCache "d1" world0)) ∅)).
  - reflexivity.
  - by eexists.
Defined.

(** After [saveDocumentWithCache] the cache holds the document as the
    caller passed it and the file holds it with the [updatedAt] of the
    save: [getDocumentWithCache] returns the first, [loadDocument] the
    second. *)
Theorem saveDocumentWithCache_then_get (document : Document) (w : World) :
  let w1 := snd (saveDocumentWithCache document w) in
  getDocumentWithCache (d_id document) w1 = (Some document, w1) /\
  fst (loadDocument (d_id document) w1) = Some (set_updatedAt document (clock w (ticks w))).
Proof.
  cbv zeta. unfold saveDocumentWithCache, saveDocument, newDate, cache_set, bind.
  cbn [fst snd]. split.
  - unfold getDocumentWithCache, bind, cache_get. cbn. by rewrite lookup_insert_eq.
  - unfold loadDocument. cbn. apply lookup_insert_eq.
Qed.

(** ** Joining a room *)

Lemma map_set_has {V} (k : string) (v : V) (m : list (string * V)) :
  (k, v) ∈ map_set k v m /\ map_has k (map_set k v m) = true.
Proof.
  induction m as [|[k' v'] m [IH1 IH2]]; simpl.
  - rewrite String.eqb_refl. split; [by left|done].
  - destruct (String.eqb k k') eqn:E; simpl.
    + rewrite String.eqb_refl. split; [by left|done].
    + rewrite IH2, orb_true_r. split; [by right|done].
Qed.

Lemma map_set_twice {V} (k : string) (v : V) (m : list (string * V)) :
  map_set k v (map_set k v m) = map_set k v m.
Proof.
  induction m as [|[k' v'] m IH]; simpl.
  - by rewrite String.eqb_refl.
  - destruct (String.eqb k k') eqn:E; simpl.
    + by rewrite String.eqb_refl.
    + by rewrite E, IH.
Qed.

Lemma members_after_join (s : Socket) (id room : string) (w : World) :
  members (snd (socket_join s id w)) room =
  if decide (room = id) then {[ socket_id s ]} ∪ members w id else members w room.
Proof.
  unfold socket_join, members. cbn.
  destruct (decide (room = id)) as [->|Hne].
  - by rewrite lookup_insert_eq.
  - by rewrite lookup_insert_ne.
Qed.

(** The world a successful [join-document] leaves. *)
Lemma join_document_world (w : World) (s : Socket) (id : string) (doc : Document) :
  files w !! id = Some doc ->
  denied doc (u_id (socket_user s)) = false ->
  let user := socket_user s in
  let room := default (mkRoom id []) (rooms w !! id) in
  let listed := map_set (socket_id s) user (room_users room) in
  snd (join_document s id w) =
  mkWorld (clock w) (ticks w) (uuids w) (drawn w) (toLocaleString w) (files w) (usersCache w)
    (documentsCache w)
    (<[ id := mkRoom (room_documentId room) listed ]> (rooms w))
    (<[ id := {[ socket_id s ]} ∪ members w id ]> (adapter w))
    (outbox w ++
     [mkDelivery (({[ socket_id s ]} ∪ members w id) ∖ {[ socket_id s ]})
        (ev_user_joined user listed);
      mkDelivery {[ socket_id s ]} (ev_room_users listed)])
    (console w ++ [u_name user +:+ " joined document: " +:+ id]).
Proof.
  intros Hload Hden user room listed.
  unfold join_document, bind, loadDocument. rewrite Hload. cbn. rewrite Hden. cbn.
  unfold members. cbn. rewrite lookup_insert_eq. cbn.
  rewrite <- app_assoc. reflexivity.
Qed.

(** A user with access who joins is put in the socket.io room and listed
    in the document's room (created if there was none). The joining socket
    is sent [room-users] with the list that includes it, and is not sent
    [user-joined]; every other socket of the room is sent [user-joined]
    with the same list. No file and no cache entry changes. *)
Theorem join_succeeds (w : World) (s : Socket) (id : string) (doc : Document) :
  files w !! id = Some doc ->
  denied doc (u_id (socket_user s)) = false ->
  let user := socket_user s in
  let w1 := snd (join_document s id w) in
  exists listed,
    (socket_id s, user) ∈ listed /\
    in_room w1 id (socket_id s) = true /\
    (room_users <$> rooms w1 !! id) = Some listed /\
    members w1 id = {[ socket_id s ]} ∪ members w id /\
    delivered (sent w w1) (socket_id s) (ev_room_users listed) /\
    ~ delivered (sent w w1) (socket_id s) (ev_user_joined user listed) /\
    (forall other, other ∈ members w id -> other <> socket_id s ->
       delivered (sent w w1) other (ev_user_joined user listed) /\
       ~ delivered (sent w w1) other (ev_room_users listed)) /\
    files w1 = files w /\ documentsCache w1 = documentsCache w.
Proof.
  intros Hload Hden user w1. subst w1.
  rewrite (join_document_world w s id doc Hload Hden). cbv zeta.
  set (room := default (mkRoom id []) (rooms w !! id)).
  set (listed := map_set (socket_id s) user (room_users room)).
  destruct (map_set_has (socket_id s) user (room_users room)) as [Hin Hhas].
  exists listed. split; [exact Hin|]. split.
  { unfold in_room. cbn. by rewrite lookup_insert_eq. }
  split. { cbn. by rewrite lookup_insert_eq. }
  split. { unfold members. cbn. by rewrite lookup_insert_eq. }
  erewrite sent_app by reflexivity.
  split; [|split; [|split]].
  - eexists. split; [right; left; reflexivity|]. split; [reflexivity|].
    cbn. by apply elem_of_singleton.
  - intros (d & Hd & He & Hto). destruct Hd as [<-|[<-|[]]]; cbn in *.
    + apply elem_of_difference in Hto as [_ Hto]. apply Hto. by apply elem_of_singleton.
    + discriminate He.
  - intros other Hother Hne. split.
    + eexists. split; [left; reflexivity|]. split; [reflexivity|]. cbn.
      apply elem_of_difference. split; [apply elem_of_union; by right|].
      intros Hx. by apply elem_of_singleton in Hx.
    + intros (d & Hd & He & Hto). destruct Hd as [<-|[<-|[]]]; cbn in *.
      * discriminate He.
      * by apply elem_of_singleton in Hto.
  - done.
Qed.

Lemma join_succeeds_witness :
  let w1 := snd (join_document socket_B "d1" world0) in
  exists listed,
    ("socket-B", bob) ∈ listed /\
    in_room w1 "d1" "socket-B" = true /\
    (room_users <$> rooms w1 !! "d1") = Some listed /\
    members w1 "d1" = {[ "socket-B" ]} ∪ members world0 "d1" /\
    delivered (sent world0 w1) "socket-B" (ev_room_users listed) /\
    ~ delivered (sent world0 w1) "socket-B" (ev_user_joined bob listed) /\
    (forall other, other ∈ members world0 "d1" -> other <> "socket-B" ->
       delivered (sent world0 w1) other (ev_user_joined bob listed) /\
       ~ delivered (sent world0 w1) other (ev_room_users listed)) /\
    files w1 = files world0 /\ documentsCache w1 = documentsCache world0.
Proof. apply (join_succeeds world0 socket_B "d1" notes); reflexivity. Defined.

(** A socket that joins again is still listed once: the room and the
    socket.io room are as the first join left them. *)
Theorem join_twice (w : World) (s : Socket) (id : string) (doc : Document) :
  files w !! id = Some doc ->
  denied doc (u_id (socket_user s)) = false ->
  let w1 := snd (join_document s id w) in
  let w2 := snd (join_document s id w1) in
  rooms w2 = rooms w1 /\ adapter w2 = adapter w1.
Proof.
  intros Hload Hden w1 w2. subst w2 w1.
  rewrite (join_document_world w s id doc Hload Hden).
  rewrite (join_document_world _ s id doc); [|exact Hload|exact Hden].
  cbn. rewrite !lookup_insert_eq. cbn. rewrite map_set_twice.
  rewrite !insert_insert_eq. split; [reflexivity|].
  unfold members. cbn. rewrite lookup_insert_eq. cbn. f_equal.
  apply set_eq. intros x. rewrite !elem_of_union. tauto.
Qed.

Lemma join_twice_witness :
  let w1 := snd (join_document socket_A "d1" world0) in
  let w2 := snd (join_document socket_A "d1" w1) in
  rooms w2 = rooms w1 /\ adapter w2 = adapter w1.
Proof. apply (join_twice world0 socket_A "d1" notes); reflexivity. Defined.

(** ** Leaving: the disconnect handler *)

Lemma map_delete_has {V} (k : string) (m : list (string * V)) :
  map_has k (map_delete k m) = false.
Proof.
  unfold map_has, map_delete. induction m as [|[k' v'] m IH]; simpl; [done|].
  destruct (String.eqb k' k) eqn:E; simpl; [exact IH|]. by rewrite E.
Qed.

Lemma map_delete_absent {V} (k : string) (m : list (string * V)) :
  map_has k m = false -> map_delete k m = m.
Proof.
  unfold map_has, map_delete. induction m as [|[k' v'] m IH]; simpl; [done|].
  intros H. apply orb_false_iff in H as [H1 H2]. rewrite H1. simpl. by rewrite IH.
Qed.

Lemma map_delete_set {V} (k : string) (v : V) (m : list (string * V)) :
  map_has k m = false -> map_delete k (map_set k v m) = m.
Proof.
  unfold map_has, map_delete. induction m as [|[k' v'] m IH]; simpl.
  - by rewrite String.eqb_refl.
  - intros H. apply orb_false_iff in H as [H1 H2].
    rewrite String.eqb_sym in H1. rewrite H1. simpl.
    rewrite String.eqb_sym in H1. rewrite H1. simpl. by rewrite IH.
Qed.

Lemma room_without_unlisted (s : Socket) (room room' : Room) :
  room_without s room = Some room' -> map_has (socket_id s) (room_users room') = false.
Proof.
  unfold room_without. destruct (map_has _ (room_users room)) eqn:Hhas.
  - destruct (length _ =? 0)%nat; [done|]. intros [= <-]. cbn. apply map_delete_has.
  - by intros [= <-].
Qed.

Lemma disconnect_rooms (s : Socket) (w : World) (id : string) :
  rooms (snd (disconnect s w)) !! id = rooms w !! id ≫= room_without s.
Proof. unfold disconnect, bind. cbn. apply lookup_omap. Qed.

(** After a disconnect no room lists the socket any more. A room that
    listed it loses that one entry and is deleted if that leaves it empty;
    a room that did not list it stays as it is, an empty one too (the room
    made for a new document has no users until somebody joins). The
    [user-left] events go to the other sockets of those rooms, never to
    the socket that left; no file and no cache entry changes. *)
Theorem disconnect_unlists (s : Socket) (w : World) :
  let w1 := snd (disconnect s w) in
  (forall id, in_room w1 id (socket_id s) = false) /\
  (forall id room, rooms w !! id = Some room ->
     rooms w1 !! id =
       if map_has (socket_id s) (room_users room)
       then (let users := map_delete (socket_id s) (room_users room) in
             if (length users =? 0)%nat then None
             else Some (mkRoom (room_documentId room) users))
       else Some room) /\
  (forall id, rooms w !! id = None -> rooms w1 !! id = None) /\
  (forall room, socket_id s ∉ members w1 room) /\
  (forall relay, relay ∈ fst (disconnect s w) -> socket_id s ∉ relay_to relay) /\
  files w1 = files w /\ documentsCache w1 = documentsCache w.
Proof.
  cbv zeta. split; [|split; [|split; [|split; [|split]]]].
  - intros id. unfold in_room. rewrite disconnect_rooms.
    destruct (rooms w !! id) as [room|]; cbn; [|done].
    destruct (room_without s room) as [room'|] eqn:Hr; [|done].
    by apply room_without_unlisted in Hr.
  - intros id room Hroom. rewrite disconnect_rooms, Hroom. reflexivity.
  - intros id Hroom. by rewrite disconnect_rooms, Hroom.
  - intros room. unfold disconnect, bind, members. cbn. rewrite lookup_fmap.
    destruct (adapter w !! room) as [sockets|]; cbn.
    + intros H. apply elem_of_difference in H as [_ H]. apply H. by apply elem_of_singleton.
    + apply not_elem_of_empty.
  - intros relay Hin. unfold disconnect, bind in Hin. cbn in Hin.
    apply list_elem_of_In, in_map_iff in Hin as (entry & <- & _). cbn.
    intros H. apply elem_of_difference in H as [_ H]. apply H. by apply elem_of_singleton.
  - done.
Qed.

Lemma disconnect_unlists_witness :
  let w := snd (join_document socket_A "d1" world0) in
  let w1 := snd (disconnect socket_A w) in
  in_room w "d1" "socket-A" = true /\
  in_room w1 "d1" "socket-A" = false /\
  rooms w1 !! "d1" = None /\
  "socket-A" ∉ members w1 "d1".
Proof.
  cbv zeta.
  destruct (disconnect_unlists socket_A (snd (join_document socket_A "d1" world0)))
    as (Hun & Hroom & _ & Hmem & _).
  split; [reflexivity|]. split; [apply Hun|]. split; [|apply Hmem].
  erewrite Hroom; [|vm_compute; reflexivity]. reflexivity.
Defined.

(** Joining a document that has no room and disconnecting again leaves the
    rooms as they were: the room made by the join is deleted when its last
    user leaves. *)
Theorem join_then_disconnect (w : World) (s : Socket) (id : string) (doc : Document) :
  files w !! id = Some doc ->
  denied doc (u_id (socket_user s)) = false ->
  rooms w !! id = None ->
  (forall other, in_room w other (socket_id s) = false) ->
  let w1 := snd (join_document s id w) in
  rooms w1 !! id = Some (mkRoom id [(socket_id s, socket_user s)]) /\
  rooms (snd (disconnect s w1)) = rooms w.
Proof.
  intros Hload Hden Hnone Hunlisted w1. subst w1.
  rewrite (join_document_world w s id doc Hload Hden). rewrite Hnone.
  split; [cbn; by rewrite lookup_insert_eq|].
  apply map_eq. intros k. rewrite disconnect_rooms. cbn.
  destruct (decide (k = id)) as [->|Hne].
  - rewrite lookup_insert_eq, Hnone. cbn. unfold room_without, map_has, map_delete. cbn.
    by rewrite String.eqb_refl.
  - rewrite lookup_insert_ne by done.
    destruct (rooms w !! k) as [room|] eqn:Hroom; [|done]. cbn.
    specialize (Hunlisted k). unfold in_room in Hunlisted. rewrite Hroom in Hunlisted.
    unfold room_without. by rewrite Hunlisted.
Qed.

Lemma join_then_disconnect_witness :
  let w1 := snd (join_document socket_A "d1" world0) in
  rooms w1 !! "d1" = Some (mkRoom "d1" [("socket-A", alice)]) /\
  rooms (snd (disconnect socket_A w1)) = rooms world0.
Proof.
  apply (join_then_disconnect world0 socket_A "d1" notes); try reflexivity.
Defined.

(** ** Presence *)



(** ** Collaborators *)

Lemma not_owner_spec (document : Document) (userId : string) :
  not_owner document userId = true <-> userId <> d_ownerId document.
Proof.
  unfold not_owner. rewrite negb_true_iff, String.eqb_neq. split; congruence.
Qed.

Lemma denied_collaborator (document : Document) (userId : string) :
  userId ∈ d_collaborators document -> denied document userId = false.
Proof.
  intros Hin. apply not_true_iff_false. rewrite denied_spec. tauto.
Qed.

(** Only the owner manages collaborators: any other user, a collaborator
    too, is answered 403 by both endpoints, in the TypeScript server and
    in the compiled one, and nothing changes. *)
Theorem collaborators_owner_only (user : User) (id email collaboratorId : string)
    (w : World) (doc : Document) :
  files w !! id = Some doc ->
  u_id user <> d_ownerId doc ->
  add_collaborator user id email w =
    (mkResponse 403 (json_error "Only document owner can add collaborators"), w) /\
  add_collaborator_js user id email w =
    (mkResponse 403 (json_error "Only document owner can add collaborators"), w) /\
  remove_collaborator user id collaboratorId w =
    (mkResponse 403 (json_error "Only document owner can remove collaborators"), w).
Proof.
  intros Hload Hno. apply not_owner_spec in Hno.
  unfold add_collaborator, add_collaborator_js, remove_collaborator, bind, loadDocument.
  rewrite Hload. cbn. by rewrite Hno.
Qed.

Lemma collaborators_owner_only_witness :
  u_id bob ∈ d_collaborators notes /\
  add_collaborator bob "d1" "mallory@example.com" world0 =
    (mkResponse 403 (json_error "Only document owner can add collaborators"), world0) /\
  add_collaborator_js bob "d1" "mallory@example.com" world0 =
    (mkResponse 403 (json_error "Only document owner can add collaborators"), world0) /\
  remove_collaborator bob "d1" "B" world0 =
    (mkResponse 403 (json_error "Only document owner can remove collaborators"), world0).
Proof.
  split; [by left|].
  apply (collaborators_owner_only bob "d1" "mallory@example.com" "B" world0 notes).
  - reflexivity.
  - discriminate.
Defined.

(** The compiled server adds no collaborator: its handler never answers
    200 and never changes anything, and the owner's request, whatever the
    email, is answered 500. The same request to the TypeScript server adds
    the user. *)
Theorem compiled_server_adds_nobody (user : User) (id email : string) (w : World) :
  snd (add_collaborator_js user id email w) = w /\
  status (fst (add_collaborator_js user id email w)) <> 200%nat /\
  (forall doc, files w !! id = Some doc -> u_id user = d_ownerId doc ->
     fst (add_collaborator_js user id email w) =
       mkResponse 500 (json_error "Internal server error")).
Proof.
  unfold add_collaborator_js, bind, loadDocument.
  destruct (files w !! id) as [doc|] eqn:Hload; cbn.
  - destruct (not_owner doc (u_id user)) eqn:Hno; cbn.
    + split; [reflexivity|]. split; [discriminate|].
      intros doc' [= <-] Howner. unfold not_owner in Hno.
      by rewrite Howner, String.eqb_refl in Hno.
    + split; [reflexivity|]. split; [discriminate|]. reflexivity.
  - split; [reflexivity|]. split; [discriminate|]. intros doc' Hd. discriminate Hd.
Qed.

Lemma compiled_server_adds_nobody_witness :
  let w := set_files world0 {[ "d1" := set_collaborators notes [] ]} in
  add_collaborator_js alice "d1" "bob@example.com" w =
    (mkResponse 500 (json_error "Internal server error"), w) /\
  status (fst (add_collaborator alice "d1" "bob@example.com" w)) = 200%nat /\
  (d_collaborators <$> files (snd (add_collaborator alice "d1" "bob@example.com" w)) !! "d1")
    = Some ["B"].
Proof.
  cbv zeta.
  destruct (compiled_server_adds_nobody alice "d1" "bob@example.com"
              (set_files world0 {[ "d1" := set_collaborators notes [] ]})) as (Hw & _ & H500).
  split; [|split; vm_compute; reflexivity].
  rewrite (surjective_pairing (add_collaborator_js _ _ _ _)), Hw.
  rewrite (H500 (set_collaborators notes [])); reflexivity.
Defined.

(** What the owner's [add] refuses or skips in the TypeScript server,
    nothing changing in each case: an email no cached user has (404), the owner's own email (400),
    and a user who is a collaborator already (200, no write). *)
Theorem add_collaborator_edge_cases (owner : User) (id email : string) (w : World)
    (doc : Document) :
  files w !! id = Some doc ->
  u_id owner = d_ownerId doc ->
  match array_find (fun u => String.eqb (u_email u) email) (map snd (usersCache w)) with
  | None =>
      add_collaborator owner id email w = (mkResponse 404 (json_error "User not found"), w)
  | Some collaborator =>
      (u_id collaborator = d_ownerId doc ->
       add_collaborator owner id email w =
         (mkResponse 400 (json_error "Cannot add owner as collaborator"), w)) /\
      (u_id collaborator <> d_ownerId doc ->
       u_id collaborator ∈ d_collaborators doc ->
       add_collaborator owner id email w =
         (mkResponse 200 (json_message "Collaborator added successfully"), w))
  end.
Proof.
  intros Hload Howner.
  assert (Hno : not_owner doc (u_id owner) = false).
  { unfold not_owner. by rewrite Howner, String.eqb_refl. }
  unfold add_collaborator, bind, loadDocument. rewrite Hload. cbn. rewrite Hno. cbn.
  destruct (array_find _ _) as [c|]; [|reflexivity]. split.
  - intros ->. by rewrite String.eqb_refl.
  - intros Hne Hin. apply String.eqb_neq in Hne. rewrite Hne.
    apply array_includes_spec in Hin. by rewrite Hin.
Qed.

Lemma add_collaborator_edge_cases_witness :
  add_collaborator alice "d1" "nobody@example.com" world0 =
    (mkResponse 404 (json_error "User not found"), world0) /\
  add_collaborator alice "d1" "alice@example.com" world0 =
    (mkResponse 400 (json_error "Cannot add owner as collaborator"), world0) /\
  add_collaborator alice "d1" "bob@example.com" world0 =
    (mkResponse 200 (json_message "Collaborator added successfully"), world0).
Proof.
  split; [|split].
  - apply (add_collaborator_edge_cases alice "d1" "nobody@example.com" world0 notes);
      reflexivity.
  - apply (add_collaborator_edge_cases alice "d1" "alice@example.com" world0 notes);
      reflexivity.
  - apply (add_collaborator_edge_cases alice "d1" "bob@example.com" world0 notes).
    + reflexivity.
    + reflexivity.
    + discriminate.
    + by left.
Defined.

(** The world a successful [add] of a new collaborator leaves. *)
Lemma add_collaborator_world (owner collaborator : User) (id email : string) (w : World)
    (doc : Document) :
  files w !! id = Some doc ->
  u_id owner = d_ownerId doc ->
  array_find (fun u => String.eqb (u_email u) email) (map snd (usersCache w))
    = Some collaborator ->
  u_id collaborator <> d_ownerId doc ->
  u_id collaborator ∉ d_collaborators doc ->
  let doc' := set_updatedAt
                (set_collaborators doc (d_collaborators doc ++ [u_id collaborator]))
                (clock w (ticks w)) in
  add_collaborator owner id email w =
  (mkResponse 200 (json_message "Collaborator added successfully"),
   set_documentsCache
     (set_files (set_ticks w (2 + ticks w)%nat)
        (<[ d_id doc := set_updatedAt doc' (clock w (1 + ticks w)%nat) ]> (files w)))
     (<[ id := doc' ]> (documentsCache w))).
Proof.
  intros Hload Howner Hfind Hne Hnew doc'. subst doc'.
  assert (Hno : not_owner doc (u_id owner) = false).
  { unfold not_owner. by rewrite Howner, String.eqb_refl. }
  unfold add_collaborator, bind, loadDocument. rewrite Hload. cbn. rewrite Hno. cbn.
  rewrite Hfind. apply String.eqb_neq in Hne. rewrite Hne.
  assert (Hinc : array_includes (d_collaborators doc) (u_id collaborator) = false).
  { apply not_true_iff_false. by rewrite array_includes_spec. }
  rewrite Hinc. reflexivity.
Qed.

(** In the TypeScript server a user the owner adds as collaborator gains
    access: refused at [join-document] before, the user is listed in the
    stored document after and joins. Adding the same user again changes no
    file. *)
Theorem added_collaborator_joins (owner : User) (s : Socket) (id email : string) (w : World)
    (doc : Document) :
  files w !! id = Some doc ->
  d_id doc = id ->
  u_id owner = d_ownerId doc ->
  array_find (fun u => String.eqb (u_email u) email) (map snd (usersCache w))
    = Some (socket_user s) ->
  u_id (socket_user s) <> d_ownerId doc ->
  u_id (socket_user s) ∉ d_collaborators doc ->
  let w1 := snd (add_collaborator owner id email w) in
  in_room (snd (join_document s id w)) id (socket_id s) = in_room w id (socket_id s) /\
  (exists doc', files w1 !! id = Some doc' /\
                d_collaborators doc' = d_collaborators doc ++ [u_id (socket_user s)] /\
                denied doc' (u_id (socket_user s)) = false) /\
  in_room (snd (join_document s id w1)) id (socket_id s) = true /\
  files (snd (add_collaborator owner id email w1)) = files w1.
Proof.
  intros Hload Hid Howner Hfind Hne Hnew w1. subst w1.
  rewrite (add_collaborator_world owner (socket_user s) id email w doc
             Hload Howner Hfind Hne Hnew).
  cbn [snd].
  set (doc1 := set_updatedAt
                 (set_updatedAt
                    (set_collaborators doc (d_collaborators doc ++ [u_id (socket_user s)]))
                    (clock w (ticks w)))
                 (clock w (1 + ticks w)%nat)).
  set (w1 := set_documentsCache _ _).
  assert (Hload1 : files w1 !! id = Some doc1).
  { subst w1. cbn. rewrite Hid. apply lookup_insert_eq. }
  assert (Hden1 : denied doc1 (u_id (socket_user s)) = false).
  { apply denied_collaborator. cbn. apply elem_of_app. right. by left. }
  split; [|split; [|split]].
  - assert (Hden : denied doc (u_id (socket_user s)) = true) by (by apply denied_spec).
    unfold join_document, bind, loadDocument. rewrite Hload. cbn. by rewrite Hden.
  - exists doc1. by repeat split.
  - rewrite (join_document_world w1 s id doc1 Hload1 Hden1). unfold in_room. cbn.
    rewrite lookup_insert_eq. cbn. apply map_set_has.
  - assert (Hno : not_owner doc1 (u_id owner) = false).
    { unfold not_owner. cbn. by rewrite Howner, String.eqb_refl. }
    unfold add_collaborator, bind, loadDocument. rewrite Hload1. cbn. rewrite Hno. cbn.
    change (usersCache w1) with (usersCache w). rewrite Hfind.
    apply String.eqb_neq in Hne.
    assert (Hinc : array_includes (d_collaborators doc1) (u_id (socket_user s)) = true).
    { apply array_includes_spec. cbn. apply elem_of_app. right. by left. }
    change (d_ownerId doc1) with (d_ownerId doc). rewrite Hne.
    unfold array_includes, doc1 in Hinc. cbn in Hinc. by rewrite Hinc.
Qed.

Lemma added_collaborator_joins_witness :
  let w := set_files world0 {[ "d1" := set_collaborators notes [] ]} in
  let w1 := snd (add_collaborator alice "d1" "bob@example.com" w) in
  in_room (snd (join_document socket_B "d1" w)) "d1" "socket-B" = in_room w "d1" "socket-B" /\
  (exists doc', files w1 !! "d1" = Some doc' /\
                d_collaborators doc' = [] ++ ["B"] /\
                denied doc' "B" = false) /\
  in_room (snd (join_document socket_B "d1" w1)) "d1" "socket-B" = true /\
  files (snd (add_collaborator alice "d1" "bob@example.com" w1)) = files w1.
Proof.
  apply (added_collaborator_joins alice socket_B "d1" "bob@example.com"
           (set_files world0 {[ "d1" := set_collaborators notes [] ]})
           (set_collaborators notes [])); try reflexivity.
  - discriminate.
  - apply not_elem_of_nil.
Defined.

Lemma remove_first_spec (x : string) (l : list string) :
  NoDup l -> forall y, y ∈ remove_first x l <-> y ∈ l /\ y <> x.
Proof.
  induction 1 as [|z l Hz Hnd IH]; intros y; simpl.
  - split; [intros H; by apply elem_of_nil in H|intros [H _]; done].
  - destruct (String.eqb z x) eqn:E.
    + apply String.eqb_eq in E as ->. rewrite elem_of_cons. split.
      * intros Hy. split; [by right|]. intros ->. done.
      * intros [[->|Hy] Hne]; done.
    + apply String.eqb_neq in E. rewrite !elem_of_cons, IH. split.
      * intros [->|[Hy Hne]]; split; auto.
      * intros [[->|Hy] Hne]; auto.
Qed.

Lemma remove_first_pushed (x : string) (l : list string) :
  x ∉ l -> remove_first x (l ++ [x]) = l.
Proof.
  induction l as [|z l IH]; simpl; intros Hx.
  - by rewrite String.eqb_refl.
  - apply not_elem_of_cons in Hx as [Hne Hx].
    assert (E : String.eqb z x = false) by (apply String.eqb_neq; congruence).
    rewrite E. by rewrite IH.
Qed.

(** The world a successful [remove] leaves. *)
Lemma remove_collaborator_world (owner : User) (id collaboratorId : string) (w : World)
    (doc : Document) :
  files w !! id = Some doc ->
  u_id owner = d_ownerId doc ->
  collaboratorId ∈ d_collaborators doc ->
  let doc' := set_updatedAt
                (set_collaborators doc (remove_first collaboratorId (d_collaborators doc)))
                (clock w (ticks w)) in
  remove_collaborator owner id collaboratorId w =
  (mkResponse 200 (json_message "Collaborator removed successfully"),
   set_documentsCache
     (set_files (set_ticks w (2 + ticks w)%nat)
        (<[ d_id doc := set_updatedAt doc' (clock w (1 + ticks w)%nat) ]> (files w)))
     (<[ id := doc' ]> (documentsCache w))).
Proof.
  intros Hload Howner Hin doc'. subst doc'.
  assert (Hno : not_owner doc (u_id owner) = false).
  { unfold not_owner. by rewrite Howner, String.eqb_refl. }
  apply array_includes_spec in Hin.
  unfold remove_collaborator, bind, loadDocument. rewrite Hload. cbn.
  rewrite Hno, Hin. reflexivity.
Qed.

(** The owner's [remove] of a listed collaborator, on a list without
    duplicates, takes exactly that user off the stored list: the user is
    refused afterwards, every other collaborator stays. *)
Theorem removed_collaborator_loses_access (owner : User) (id collaboratorId : string)
    (w : World) (doc : Document) :
  files w !! id = Some doc ->
  u_id owner = d_ownerId doc ->
  collaboratorId ∈ d_collaborators doc ->
  collaboratorId <> d_ownerId doc ->
  NoDup (d_collaborators doc) ->
  let w1 := snd (remove_collaborator owner id collaboratorId w) in
  fst (remove_collaborator owner id collaboratorId w) =
    mkResponse 200 (json_message "Collaborator removed successfully") /\
  exists doc',
    files w1 !! d_id doc = Some doc' /\
    (forall y, y ∈ d_collaborators doc' <-> y ∈ d_collaborators doc /\ y <> collaboratorId) /\
    denied doc' collaboratorId = true /\
    d_ownerId doc' = d_ownerId doc /\ d_versions doc' = d_versions doc /\
    d_content doc' = d_content doc.
Proof.
  intros Hload Howner Hin Hne Hnd w1. subst w1.
  assert (Hno : not_owner doc (u_id owner) = false).
  { unfold not_owner. by rewrite Howner, String.eqb_refl. }
  apply array_includes_spec in Hin.
  unfold remove_collaborator, bind, loadDocument. rewrite Hload. cbn. rewrite Hno, Hin. cbn.
  split; [reflexivity|]. eexists. split; [apply lookup_insert_eq|]. cbn.
  split; [by apply remove_first_spec|]. split; [|done].
  apply denied_spec. cbn. split; [done|]. rewrite remove_first_spec by done. tauto.
Qed.

Lemma removed_collaborator_loses_access_witness :
  let w1 := snd (remove_collaborator alice "d1" "B" world0) in
  fst (remove_collaborator alice "d1" "B" world0) =
    mkResponse 200 (json_message "Collaborator removed successfully") /\
  exists doc',
    files w1 !! "d1" = Some doc' /\
    (forall y, y ∈ d_collaborators doc' <-> y ∈ d_collaborators notes /\ y <> "B") /\
    denied doc' "B" = true /\
    d_ownerId doc' = d_ownerId notes /\ d_versions doc' = d_versions notes /\
    d_content doc' = d_content notes.
Proof.
  apply (removed_collaborator_loses_access alice "d1" "B" world0 notes).
  - reflexivity.
  - reflexivity.
  - by left.
  - discriminate.
  - apply NoDup_singleton.
Defined.

(** In the TypeScript server, adding a new collaborator and removing that
    user again leaves the stored list of collaborators as it was. *)
Theorem add_then_remove_collaborator (owner collaborator : User) (id email : string)
    (w : World) (doc : Document) :
  files w !! id = Some doc ->
  d_id doc = id ->
  u_id owner = d_ownerId doc ->
  array_find (fun u => String.eqb (u_email u) email) (map snd (usersCache w))
    = Some collaborator ->
  u_id collaborator <> d_ownerId doc ->
  u_id collaborator ∉ d_collaborators doc ->
  let w1 := snd (add_collaborator owner id email w) in
  let w2 := snd (remove_collaborator owner id (u_id collaborator) w1) in
  (d_collaborators <$> files w2 !! id) = Some (d_collaborators doc).
Proof.
  intros Hload Hid Howner Hfind Hne Hnew w1 w2. subst w2 w1.
  rewrite (add_collaborator_world owner collaborator id email w doc
             Hload Howner Hfind Hne Hnew).
  cbn [snd].
  set (doc1 := set_updatedAt
                 (set_updatedAt
                    (set_collaborators doc (d_collaborators doc ++ [u_id collaborator]))
                    (clock w (ticks w)))
                 (clock w (1 + ticks w)%nat)).
  set (w1 := set_documentsCache _ _).
  assert (Hload1 : files w1 !! id = Some doc1).
  { subst w1. cbn. rewrite Hid. apply lookup_insert_eq. }
  rewrite (remove_collaborator_world owner id (u_id collaborator) w1 doc1 Hload1).
  - cbn. rewrite Hid, lookup_insert_eq. cbn. by rewrite remove_first_pushed.
  - exact Howner.
  - cbn. apply elem_of_app. right. by left.
Qed.

Lemma add_then_remove_collaborator_witness :
  let w := set_files world0 {[ "d1" := set_collaborators notes [] ]} in
  let w1 := snd (add_collaborator alice "d1" "bob@example.com" w) in
  let w2 := snd (remove_collaborator alice "d1" "B" w1) in
  (d_collaborators <$> files w2 !! "d1") = Some [].
Proof.
  apply (add_then_remove_collaborator alice bob "d1" "bob@example.com"
           (set_files world0 {[ "d1" := set_collaborators notes [] ]})
           (set_collaborators notes [])); try reflexivity.
  - discriminate.
  - apply not_elem_of_nil.
Defined.

(** ** More on restoring *)

Lemma append_length (a b : string) :
  String.length (a +:+ b) = (String.length a + String.length b)%nat.
Proof. induction a as [|c a IH]; simpl; [reflexivity|by rewrite IH]. Qed.

Lemma restore_room_differs (id : string) : "document:" +:+ id <> id.
Proof.
  intros H. apply (f_equal String.length) in H. rewrite append_length in H. simpl in H. lia.
Qed.

(** The world a successful restore leaves. *)
Lemma restore_version_world (user : User) (id versionId : string) (w : World)
    (doc : Document) (target : DocumentVersion) :
  files w !! id = Some doc ->
  denied doc (u_id user) = false ->
  array_find (fun v => String.eqb (v_id v) versionId) (d_versions doc) = Some target ->
  let before :=
    mkVersion (uuids w (drawn w)) (d_content doc) (clock w (ticks w)) (u_id user) (u_name user)
      (Some ("Auto-save before restoring to version from " +:+
             toLocaleString w (v_createdAt target))) in
  let restored :=
    mkDocument (d_id doc) (d_title doc) (v_content target) (d_ownerId doc)
      (d_collaborators doc) (d_createdAt doc) (clock w (2 + ticks w)%nat)
      (committed (d_versions doc) before defaultMaxVersions) in
  let fromVersion := mkVersionRef (v_id target) (v_createdAt target) (v_authorName target) in
  restore_version user id versionId w =
  (mkResponse 200 (json_restored "Document restored successfully" (clock w (5 + ticks w)%nat)
                     fromVersion),
   mkWorld (clock w) (6 + ticks w)%nat (uuids w) (1 + drawn w)%nat (toLocaleString w)
     (<[ d_id doc := set_updatedAt restored (clock w (3 + ticks w)%nat) ]> (files w))
     (usersCache w) (<[ id := restored ]> (documentsCache w)) (rooms w) (adapter w)
     (outbox w ++
      [mkDelivery (members w ("document:" +:+ id))
         (ev_document_restored id (v_content target) (u_name user) (clock w (4 + ticks w)%nat)
            fromVersion)])
     (console w)).
Proof.
  intros Hload Hden Hfind before restored fromVersion.
  unfold restore_version, bind, loadDocument. rewrite Hload, Hden, Hfind. reflexivity.
Qed.

(** [restore] announces [document-restored] in the socket.io room named
    "document:" followed by the id, which is not the room [join-document]
    puts sockets in: a socket that joined the document is in the room named
    by the id, and the announcement goes to whoever was in the other room
    before the join: to nobody when that room is empty. *)
Theorem restore_announces_elsewhere (w : World) (s : Socket) (user : User)
    (id versionId : string) (doc : Document) :
  files w !! id = Some doc ->
  denied doc (u_id (socket_user s)) = false ->
  let w1 := snd (join_document s id w) in
  let w2 := snd (restore_version user id versionId w1) in
  socket_id s ∈ members w1 id /\
  (forall d, d ∈ sent w1 w2 -> recipients d = members w ("document:" +:+ id)) /\
  (members w ("document:" +:+ id) = ∅ ->
   forall sid e, ~ delivered (sent w1 w2) sid e).
Proof.
  intros Hload Hden w1 w2.
  assert (Hw1 : w1 = snd (join_document s id w)) by reflexivity.
  rewrite (join_document_world w s id doc Hload Hden) in Hw1. cbv zeta in Hw1.
  assert (Hmem : members w1 ("document:" +:+ id) = members w ("document:" +:+ id)).
  { rewrite Hw1. unfold members. cbn. rewrite lookup_insert_ne; [done|].
    intros H. by apply (restore_room_differs id). }
  assert (Hload1 : files w1 !! id = Some doc) by (by rewrite Hw1).
  assert (Hsent : forall d, d ∈ sent w1 w2 -> recipients d = members w ("document:" +:+ id)).
  2: { split; [|split; [exact Hsent|]].
       - rewrite Hw1. unfold members. cbn. rewrite lookup_insert_eq. cbn.
         apply elem_of_union. left. by apply elem_of_singleton.
       - intros Hempty sid e (d & Hd & _ & Hto). apply list_elem_of_In, Hsent in Hd.
         rewrite Hd, Hempty in Hto. by apply not_elem_of_empty in Hto. }
  - intros d Hd. subst w2. unfold sent in Hd.
    destruct (denied doc (u_id user)) eqn:Hdu.
    + unfold restore_version, bind, loadDocument in Hd. rewrite Hload1, Hdu in Hd.
      cbn in Hd. rewrite drop_all in Hd. by apply elem_of_nil in Hd.
    + destruct (array_find (fun v => String.eqb (v_id v) versionId) (d_versions doc))
        as [target|] eqn:Hfind.
      * rewrite (restore_version_world user id versionId w1 doc target Hload1 Hdu Hfind) in Hd.
        cbn in Hd. rewrite drop_app_length in Hd.
        apply list_elem_of_singleton in Hd as ->. cbn. exact Hmem.
      * unfold restore_version, bind, loadDocument in Hd. rewrite Hload1, Hdu, Hfind in Hd.
        cbn in Hd. rewrite drop_all in Hd. by apply elem_of_nil in Hd.
Qed.

Lemma restore_announces_elsewhere_witness :
  let w1 := snd (join_document socket_B "d1" world0) in
  let w2 := snd (restore_version alice "d1" "v0" w1) in
  "socket-B" ∈ members w1 "d1" /\
  (forall d, d ∈ sent w1 w2 -> recipients d = members world0 "document:d1") /\
  (members world0 "document:d1" = ∅ ->
   forall sid e, ~ delivered (sent w1 w2) sid e).
Proof.
  apply (restore_announces_elsewhere world0 socket_B alice "d1" "v0" notes); reflexivity.
Defined.

(** A restore can be undone. The version it commits first carries a fresh
    id; when that id is not in the ledger yet and the version is kept
    (the ledger has room or is older than the clock's reading), restoring
    to that id brings the content of before the restore back, and
    [GET /api/documents/:id] returns the restored content each time. *)
Theorem restore_can_be_undone (w : World) (user : User) (id versionId : string)
    (doc : Document) (target : DocumentVersion) :
  files w !! id = Some doc ->
  d_id doc = id ->
  denied doc (u_id user) = false ->
  array_find (fun v => String.eqb (v_id v) versionId) (d_versions doc) = Some target ->
  (forall v, v ∈ d_versions doc -> v_id v <> uuids w (drawn w)) ->
  (length (d_versions doc) < 50)%nat \/
    Forall (fun v => (v_createdAt v < clock w (ticks w))%Z) (d_versions doc) ->
  let w1 := snd (restore_version user id versionId w) in
  let w2 := snd (restore_version user id (uuids w (drawn w)) w1) in
  (exists d1, get_document user id w1 = (mkResponse 200 (json_document d1), w1) /\
              d_content d1 = v_content target) /\
  (d_content <$> files w1 !! id) = Some (v_content target) /\
  (exists d2, get_document user id w2 = (mkResponse 200 (json_document d2), w2) /\
              d_content d2 = d_content doc) /\
  (d_content <$> files w2 !! id) = Some (d_content doc).
Proof.
  intros Hload Hid Hden Hfind Hfresh Hroom w1 w2. subst w2 w1.
  rewrite (restore_version_world user id versionId w doc target Hload Hden Hfind).
  cbv zeta. cbn [snd].
  set (before := mkVersion (uuids w (drawn w)) (d_content doc) (clock w (ticks w)) (u_id user)
                   (u_name user) _).
  set (restored := mkDocument (d_id doc) (d_title doc) (v_content target) (d_ownerId doc)
                     (d_collaborators doc) (d_createdAt doc) _ _).
  set (w1 := mkWorld _ _ _ _ _ _ _ _ _ _ _ _).
  assert (Hload1 : files w1 !! id = Some (set_updatedAt restored (clock w (3 + ticks w)%nat))).
  { subst w1. cbn. rewrite Hid. apply lookup_insert_eq. }
  assert (Hcache1 : documentsCache w1 !! id = Some restored).
  { subst w1. cbn. apply lookup_insert_eq. }
  assert (Hkept : before ∈ committed (d_versions doc) before defaultMaxVersions).
  { apply committed_keeps; [apply defaultMaxVersions_nonneg|].
    pose proof (rank_room w (d_versions doc) before 1) as Hr.
    assert (Hroom' : (length (d_versions doc) + 1 <= 50)%nat \/
              Forall (fun v => (v_createdAt v < clock w (ticks w))%Z) (d_versions doc)).
    { destruct Hroom; [left; lia|by right]. }
    specialize (Hr Hroom' ltac:(cbn; lia) ltac:(lia)). unfold defaultMaxVersions. lia. }
  assert (Hfind1 : array_find (fun v => String.eqb (v_id v) (uuids w (drawn w)))
                     (committed (d_versions doc) before defaultMaxVersions) = Some before).
  { apply array_find_unique; [exact Hkept|apply String.eqb_refl|].
    intros y Hy Hp. apply String.eqb_eq in Hp.
    apply (committed_subset _ _ _ _ defaultMaxVersions_nonneg) in Hy as [Hy| ->]; [|done].
    by apply Hfresh in Hy. }
  split; [|split; [|split]].
  - exists restored. split; [|reflexivity].
    unfold get_document, bind, cache_get. rewrite Hcache1.
    change (denied restored (u_id user)) with (denied doc (u_id user)). by rewrite Hden.
  - by rewrite Hload1.
  - rewrite (restore_version_world user id (uuids w (drawn w)) w1 _ before Hload1);
      [|exact Hden|exact Hfind1].
    cbv zeta. cbn [snd]. eexists. split.
    + unfold get_document, bind, cache_get. cbn. rewrite lookup_insert_eq.
      change (denied _ (u_id user)) with (denied doc (u_id user)). by rewrite Hden.
    + reflexivity.
  - rewrite (restore_version_world user id (uuids w (drawn w)) w1 _ before Hload1);
      [|exact Hden|exact Hfind1].
    cbv zeta. cbn. rewrite Hid. by rewrite lookup_insert_eq.
Qed.

Lemma restore_can_be_undone_witness :
  let doc := set_content notes "<p>draft</p>" in
  let w := set_files world0 {[ "d1" := doc ]} in
  let w1 := snd (restore_version alice "d1" "v0" w) in
  let w2 := snd (restore_version alice "d1" "uuid-0" w1) in
  (exists d1, get_document alice "d1" w1 = (mkResponse 200 (json_document d1), w1) /\
              d_content d1 = "<p>hi</p>") /\
  (d_content <$> files w1 !! "d1") = Some "<p>hi</p>" /\
  (exists d2, get_document alice "d1" w2 = (mkResponse 200 (json_document d2), w2) /\
              d_content d2 = "<p>draft</p>") /\
  (d_content <$> files w2 !! "d1") = Some "<p>draft</p>".
Proof.
  apply (restore_can_be_undone (set_files world0 {[ "d1" := set_content notes "<p>draft</p>" ]})
           alice "d1" "v0" (set_content notes "<p>draft</p>")
           (mkVersion "v0" "<p>hi</p>" 0 "A" "Alice" (Some "Initial version")));
    try reflexivity.
  - intros v Hv. apply list_elem_of_singleton in Hv as ->. discriminate.
  - left. cbn. lia.
Defined.

(** ** Deleting and backing up *)

Section BackupProperties.

Variable stamp : Z -> string.

(** The disk an owner's [DELETE] leaves. *)
Lemma delete_document_disk (owner : User) (id : string) (d : Disk) (doc : Document) :
  files (world d) !! id = Some doc ->
  u_id owner = d_ownerId doc ->
  let w := world d in
  delete_document stamp owner id d =
  (delete_ok true "Document deleted successfully",
   mkDisk
     (mkWorld (clock w) (2 + ticks w)%nat (uuids w) (drawn w) (toLocaleString w)
        (delete id (files w)) (usersCache w) (delete id (documentsCache w)) (rooms w)
        (adapter w) (outbox w) (console w ++ ["ðŸ—‘ï¸ Document file deleted: " +:+ id]))
     (<[ backup_name stamp id (clock w (ticks w)) := mkBackup doc (clock w (1 + ticks w)%nat) ]>
        (backups d))).
Proof.
  intros Hload Howner w. subst w.
  assert (Hno : not_owner doc (u_id owner) = false).
  { unfold not_owner. by rewrite Howner, String.eqb_refl. }
  unfold delete_document, bindB, lift, loadDocument. cbn. rewrite Hload. cbn. rewrite Hno.
  unfold deleteDocument, createBackup, bindB, lift, loadDocument. cbn.
  repeat (rewrite Hload; cbn). reflexivity.
Qed.

(** After the owner's [DELETE] the document is gone from the files and
    from the cache, and a backup holds it as it was. [GET] answers 404,
    [join-document] answers "Document not found" to the joining socket,
    and an edit sent through the socket is dropped without any event. The
    document's room is left in place. *)
Theorem delete_removes_document (owner user : User) (s : Socket) (id content : string)
    (d : Disk) (doc : Document) :
  files (world d) !! id = Some doc ->
  u_id owner = d_ownerId doc ->
  let w := world d in
  let d1 := snd (delete_document stamp owner id d) in
  let w1 := world d1 in
  fst (delete_document stamp owner id d) = delete_ok true "Document deleted successfully" /\
  fst (loadDocument id w1) = None /\
  backups d1 !! backup_name stamp id (clock w (ticks w)) =
    Some (mkBackup doc (clock w (1 + ticks w)%nat)) /\
  get_document user id w1 = (mkResponse 404 (json_error "Document not found"), w1) /\
  join_document s id w1 =
    (tt, set_outbox w1 (outbox w1 ++
           [mkDelivery {[ socket_id s ]} (ev_error "Document not found")])) /\
  document_change s id content w1 = (tt, w1) /\
  document_change_js s id content w1 = (tt, w1) /\
  rooms w1 = rooms w.
Proof.
  intros Hload Howner w d1 w1. subst w1 d1 w.
  rewrite (delete_document_disk owner id d doc Hload Howner). cbv zeta.
  cbn [fst snd world backups].
  set (w1 := mkWorld _ _ _ _ _ _ _ _ _ _ _ _).
  assert (Hgone : files w1 !! id = None) by apply lookup_delete_eq.
  split; [reflexivity|]. split; [exact Hgone|].
  split; [apply lookup_insert_eq|]. split; [|split; [|split; [|split]]].
  - unfold get_document, bind, cache_get. subst w1. cbn [documentsCache].
    by rewrite lookup_delete_eq.
  - unfold join_document, bind, loadDocument. by rewrite Hgone.
  - by apply document_change_missing.
  - by apply document_change_missing.
  - reflexivity.
Qed.

(** Only the owner deletes: a collaborator is answered 403, a missing
    document 404, and neither the world nor the backups change. *)
Theorem delete_owner_only (user : User) (id : string) (d : Disk) :
  (files (world d) !! id = None ->
   delete_document stamp user id d = (delete_error 404 "Document not found", d)) /\
  (forall doc, files (world d) !! id = Some doc -> u_id user <> d_ownerId doc ->
   delete_document stamp user id d =
     (delete_error 403 "Access denied - only owner can delete document", d)).
Proof.
  unfold delete_document, bindB, lift, loadDocument. destruct d as [w b]. cbn. split.
  - by intros ->.
  - intros doc -> Hne. apply not_owner_spec in Hne. by rewrite Hne.
Qed.

(** A deleted document comes back from its backup: [restoreFromBackup] on
    the file [deleteDocument] wrote saves the document again, as it was but
    for [updatedAt]. A file name that is not in the backups gives [false]
    and changes nothing. *)
Theorem delete_then_restore_from_backup (id : string) (d : Disk) (doc : Document) :
  files (world d) !! id = Some doc ->
  d_id doc = id ->
  let w := world d in
  let d1 := snd (deleteDocument stamp id d) in
  let name := backup_name stamp id (clock w (ticks w)) in
  let d2 := snd (restoreFromBackup name d1) in
  fst (deleteDocument stamp id d) = true /\
  files (world d1) !! id = None /\
  fst (restoreFromBackup name d1) = true /\
  files (world d2) !! id = Some (set_updatedAt doc (clock w (2 + ticks w)%nat)) /\
  (forall other, backups d1 !! other = None -> restoreFromBackup other d1 = (false, d1)).
Proof.
  intros Hload Hid w d1 name d2. subst d2 name d1 w.
  unfold deleteDocument, createBackup, bindB, lift, loadDocument. cbn.
  repeat (rewrite Hload; cbn).
  split; [reflexivity|]. split; [apply lookup_delete_eq|].
  unfold restoreFromBackup. cbn. rewrite lookup_insert_eq. cbn.
  split; [reflexivity|]. split.
  - rewrite Hid. apply lookup_insert_eq.
  - intros other Hother. by rewrite Hother.
Qed.


(** The backup endpoint checks access on the cached copy when there is one
    and writes the copy on disk to the backups: after an edit through the
    socket, which bypasses the cache, the backup holds the new content. *)
Theorem backup_holds_file (user : User) (s : Socket) (id content : string) (d : Disk)
    (doc : Document) :
  files (world d) !! id = Some doc ->
  d_id doc = id ->
  documentsCache (world d) !! id = Some doc ->
  denied doc (u_id user) = false ->
  content <> d_content doc ->
  let d1 := mkDisk (snd (document_change s id content (world d))) (backups d) in
  let d2 := snd (backup_endpoint stamp user id d1) in
  let w1 := world d1 in
  fst (backup_endpoint stamp user id d1) =
    mkResponse 200 (json_message "Backup created successfully") /\
  (d_content <$> documentsCache w1 !! id) = Some (d_content doc) /\
  (d_content ∘ backup_document <$> backups d2 !! backup_name stamp id (clock w1 (ticks w1)))
    = Some content /\
  files (world d2) = files w1.
Proof.
  intros Hload Hid Hcache Hden Hne d1 d2 w1. subst d2 w1 d1 id.
  rewrite (document_change_world _ _ _ _ _ Hload Hne). cbv zeta.
  unfold backup_endpoint, bindB, lift, getDocumentWithCache, bind, cache_get. cbn.
  rewrite Hcache. cbn. rewrite Hden.
  unfold createBackup, bindB, lift, loadDocument. cbn.
  rewrite lookup_insert_eq. cbn.
  split; [reflexivity|]. split; [reflexivity|]. split; [|reflexivity].
  by rewrite lookup_insert_eq.
Qed.

End BackupProperties.

Lemma delete_removes_document_witness :
  let d := mkDisk world0 ∅ in
  let d1 := snd (delete_document (fun t => pretty t) alice "d1" d) in
  let w1 := world d1 in
  fst (delete_document (fun t => pretty t) alice "d1" d) =
    delete_ok true "Document deleted successfully" /\
  fst (loadDocument "d1" w1) = None /\
  backups d1 !! backup_name (fun t => pretty t) "d1" (clock world0 (ticks world0)) =
    Some (mkBackup notes (clock world0 (1 + ticks world0)%nat)) /\
  get_document bob "d1" w1 = (mkResponse 404 (json_error "Document not found"), w1) /\
  join_document socket_B "d1" w1 =
    (tt, set_outbox w1 (outbox w1 ++
           [mkDelivery {[ "socket-B" ]} (ev_error "Document not found")])) /\
  document_change socket_B "d1" "<p>late</p>" w1 = (tt, w1) /\
  document_change_js socket_B "d1" "<p>late</p>" w1 = (tt, w1) /\
  rooms w1 = rooms world0.
Proof.
  apply (delete_removes_document (fun t => pretty t) alice bob socket_B "d1" "<p>late</p>"
           (mkDisk world0 ∅) notes); reflexivity.
Defined.

Lemma delete_owner_only_witness :
  delete_document (fun t => pretty t) alice "nowhere" (mkDisk world0 ∅) =
    (delete_error 404 "Document not found", mkDisk world0 ∅) /\
  delete_document (fun t => pretty t) bob "d1" (mkDisk world0 ∅) =
    (delete_error 403 "Access denied - only owner can delete document", mkDisk world0 ∅).
Proof.
  split.
  - apply (proj1 (delete_owner_only (fun t => pretty t) alice "nowhere" (mkDisk world0 ∅))).
    reflexivity.
  - apply (proj2 (delete_owner_only (fun t => pretty t) bob "d1" (mkDisk world0 ∅)) notes).
    + reflexivity.
    + discriminate.
Defined.

Lemma delete_then_restore_from_backup_witness :
  let stamp := fun t : Z => pretty t in
  let d := mkDisk world0 ∅ in
  let d1 := snd (deleteDocument stamp "d1" d) in
  let name := backup_name stamp "d1" (clock world0 (ticks world0)) in
  let d2 := snd (restoreFromBackup name d1) in
  fst (deleteDocument stamp "d1" d) = true /\
  files (world d1) !! "d1" = None /\
  fst (restoreFromBackup name d1) = true /\
  files (world d2) !! "d1" = Some (set_updatedAt notes (clock world0 (2 + ticks world0)%nat)) /\
  (forall other, backups d1 !! other = None -> restoreFromBackup other d1 = (false, d1)).
Proof.
  apply (delete_then_restore_from_backup (fun t => pretty t) "d1" (mkDisk world0 ∅) notes);
    reflexivity.
Defined.


Lemma backup_holds_file_witness :
  let stamp := fun t : Z => pretty t in
  let d := mkDisk (set_documentsCache world0 {[ "d1" := notes ]}) ∅ in
  let d1 := mkDisk (snd (document_change socket_A "d1" "<p>hello</p>" (world d))) (backups d) in
  let d2 := snd (backup_endpoint stamp bob "d1" d1) in
  let w1 := world d1 in
  fst (backup_endpoint stamp bob "d1" d1) =
    mkResponse 200 (json_message "Backup created successfully") /\
  (d_content <$> documentsCache w1 !! "d1") = Some "<p>hi</p>" /\
  (d_content ∘ backup_document <$> backups d2 !! backup_name stamp "d1" (clock w1 (ticks w1)))
    = Some "<p>hello</p>" /\
  files (world d2) = files w1.
Proof.
  apply (backup_holds_file (fun t => pretty t) bob socket_A "d1" "<p>hello</p>"
           (mkDisk (set_documentsCache world0 {[ "d1" := notes ]}) ∅) notes);
    try reflexivity.
  discriminate.
Defined.
